(** * LLM_QA_CLI: the question-answering relay

    A shallow embedding of [LLM_QA_CLI.py]: the text normalizer
    [preprocess], the prompt builder [construct_prompt], the two provider
    adapters [send_to_gemini] and [send_to_huggingface], and the fallback
    orchestrator [ask_llm].

    Conventions of the embedding.
    - A Python [str] is a [string]; each [ascii] stands for the code point
      of the same number, U+0000 to U+00FF.  The character tables of
      [str.lower], [str.split], [str.strip] and of the [re] classes [\w]
      and [\s] are Python's own on that range.  The single character of
      the source outside the range, the dash of the simulated answer,
      appears as the three bytes of its UTF-8 encoding.
    - A value decoded from JSON, and more generally any Python object the
      code handles, is a [JSON].  A float is carried by its [repr].
    - Effects are explicit: a computation reads the process environment
      and posts HTTP requests through a [World], logs both in a trace of
      events, and ends by returning a value or raising an exception.
      Exceptions are those the adapters and the libraries they call raise;
      an interrupt delivered to the process from outside is not modelled. *)

From Stdlib Require Import List String Ascii Bool NArith ZArith DecimalString
  Lia.
Import ListNotations.

Set Warnings "-register-all".

Local Open Scope list_scope.
Local Open Scope string_scope.

(** ** Characters and strings *)

Definition chars (s : string) : list ascii := list_ascii_of_string s.
Definition of_chars (l : list ascii) : string := string_of_list_ascii l.

Definition ord (c : ascii) : N := N_of_ascii c.

Definition between (lo hi : N) (c : ascii) : bool :=
  ((lo <=? ord c) && (ord c <=? hi))%N.

(** [str.isspace] on one character; also the class [\s] of [re] and the
    separators of [str.split()] and [str.strip()]. *)
Definition isspace (c : ascii) : bool :=
  between 9 13 c || between 28 32 c || (ord c =? 133)%N || (ord c =? 160)%N.

(** [str.isalnum] on one character. *)
Definition isalnum (c : ascii) : bool :=
  between 48 57 c || between 65 90 c || between 97 122 c
  || (ord c =? 170)%N || between 178 179 c || (ord c =? 181)%N
  || between 185 186 c || between 188 190 c
  || between 192 214 c || between 216 246 c || between 248 255 c.

(** The class [\w] of [re] on a [str] pattern: alphanumerics and the
    underscore. *)
Definition isword (c : ascii) : bool := isalnum c || (ord c =? 95)%N.

(** The lower-case mapping of one character. *)
Definition lower_char (c : ascii) : ascii :=
  if between 65 90 c || between 192 214 c || between 216 222 c
  then ascii_of_N (ord c + 32)
  else c.

(** [text.lower()] *)
Definition str_lower (text : string) : string :=
  of_chars (map lower_char (chars text)).

(** The characters that [[^\w\s]] does not match. *)
Definition word_or_space (c : ascii) : bool := isword c || isspace c.

(** [re.sub(r"[^\w\s]", "", text)] *)
Definition re_sub_punct (text : string) : string :=
  of_chars (filter word_or_space (chars text)).

(** [str.split()] with no argument: the maximal runs of characters that
    are not whitespace.  [tok] is the run being read. *)
Definition emit (tok : list ascii) : list (list ascii) :=
  match tok with
  | [] => []
  | _ :: _ => [tok]
  end.

Fixpoint split_from (tok cs : list ascii) : list (list ascii) :=
  match cs with
  | [] => emit tok
  | c :: cs' =>
      if isspace c then (emit tok ++ split_from [] cs')%list
      else split_from (tok ++ [c])%list cs'
  end.

Definition split_chars (cs : list ascii) : list (list ascii) :=
  split_from [] cs.

Definition str_split (text : string) : list string :=
  map of_chars (split_chars (chars text)).

(** [sep.join(tokens)] *)
Definition str_join (sep : string) (tokens : list string) : string :=
  String.concat sep tokens.

Definition preprocess (text : string) : string :=
  let text := str_lower text in
  let text := re_sub_punct text in
  let tokens := str_split text in
  str_join " " tokens.

(** The line feed, [\n] in the source. *)
Definition LF : string := String (ascii_of_N 10) EmptyString.

Definition construct_prompt (processed_question : string) : string :=
  "You are a helpful assistant. Answer concisely and clearly." ++ LF
  ++ "Question: " ++ processed_question ++ LF ++ "Answer:".

(** [s.strip()] with no argument. *)
Fixpoint lstrip_chars (cs : list ascii) : list ascii :=
  match cs with
  | [] => []
  | c :: cs' => if isspace c then lstrip_chars cs' else cs
  end.

Definition str_strip (s : string) : string :=
  of_chars (rev (lstrip_chars (rev (lstrip_chars (chars s))))).

(** [s.endswith(suffix)] *)
Definition str_endswith (s suffix : string) : bool :=
  String.prefix (of_chars (rev (chars suffix))) (of_chars (rev (chars s))).

(** [str(n)] for an [int]. *)
Definition str_of_int (n : Z) : string := NilEmpty.string_of_int (Z.to_int n).

Definition hex_digit (n : N) : ascii :=
  if (n <? 10)%N then ascii_of_N (48 + n) else ascii_of_N (87 + n).

(** The two lower-case hexadecimal digits of a character. *)
Definition hex2 (c : ascii) : string :=
  String (hex_digit (ord c / 16)) (String (hex_digit (ord c mod 16)) "").

(** ** Python objects decoded from JSON *)

(** [null], [true] and [false], an [int], a [float] (carried by the text
    [repr] gives for it), a [str], a [list] and a [dict] (its items in
    order). *)
Inductive JSON : Type :=
| JNull
| JBool (b : bool)
| JInt (n : Z)
| JFloat (repr : string)
| JString (s : string)
| JList (items : list JSON)
| JDict (entries : list (string * JSON)).

(** [type(v).__name__] *)
Definition type_name (v : JSON) : string :=
  match v with
  | JNull => "NoneType"
  | JBool _ => "bool"
  | JInt _ => "int"
  | JFloat _ => "float"
  | JString _ => "str"
  | JList _ => "list"
  | JDict _ => "dict"
  end.

(** [d.get(key)], [None] when the key is absent. *)
Fixpoint dict_get (key : string) (d : list (string * JSON)) : option JSON :=
  match d with
  | [] => None
  | (k, v) :: d' => if String.eqb k key then Some v else dict_get key d'
  end.

Definition dquote : string := String (ascii_of_N 34) EmptyString.
Definition squote : string := String (ascii_of_N 39) EmptyString.
Definition backslash : string := String (ascii_of_N 92) EmptyString.

(** *** [json.dumps] with its default arguments *)

Definition dumps_char (c : ascii) : string :=
  if (ord c =? 34)%N then backslash ++ dquote
  else if (ord c =? 92)%N then backslash ++ backslash
  else if (ord c =? 8)%N then backslash ++ "b"
  else if (ord c =? 12)%N then backslash ++ "f"
  else if (ord c =? 10)%N then backslash ++ "n"
  else if (ord c =? 13)%N then backslash ++ "r"
  else if (ord c =? 9)%N then backslash ++ "t"
  else if between 32 126 c then String c EmptyString
  else backslash ++ "u00" ++ hex2 c.

Definition dumps_str (s : string) : string :=
  dquote ++ String.concat EmptyString (map dumps_char (chars s)) ++ dquote.

Definition dumps_float (repr : string) : string :=
  if String.eqb repr "nan" then "NaN"
  else if String.eqb repr "inf" then "Infinity"
  else if String.eqb repr "-inf" then "-Infinity"
  else repr.

Fixpoint json_dumps (v : JSON) : string :=
  match v with
  | JNull => "null"
  | JBool true => "true"
  | JBool false => "false"
  | JInt n => str_of_int n
  | JFloat r => dumps_float r
  | JString s => dumps_str s
  | JList items => "[" ++ String.concat ", " (map json_dumps items) ++ "]"
  | JDict entries =>
      "{" ++ String.concat ", "
               (map (fun kv => let '(k, x) := kv in
                               dumps_str k ++ ": " ++ json_dumps x) entries)
          ++ "}"
  end.

(** *** [repr] and [str] *)

Definition has_char (n : N) (s : string) : bool :=
  existsb (fun c => (ord c =? n)%N) (chars s).

(** [str.isprintable] on one character. *)
Definition isprintable (c : ascii) : bool :=
  between 32 126 c || between 161 172 c || between 174 255 c.

Definition repr_char (quote : N) (c : ascii) : string :=
  if (ord c =? quote)%N || (ord c =? 92)%N then backslash ++ String c EmptyString
  else if (ord c =? 9)%N then backslash ++ "t"
  else if (ord c =? 10)%N then backslash ++ "n"
  else if (ord c =? 13)%N then backslash ++ "r"
  else if isprintable c then String c EmptyString
  else backslash ++ "x" ++ hex2 c.

Definition repr_str (s : string) : string :=
  let quote : N := if has_char 39 s && negb (has_char 34 s) then 34%N else 39%N in
  let q := String (ascii_of_N quote) EmptyString in
  q ++ String.concat EmptyString (map (repr_char quote) (chars s)) ++ q.

Fixpoint py_repr (v : JSON) : string :=
  match v with
  | JNull => "None"
  | JBool true => "True"
  | JBool false => "False"
  | JInt n => str_of_int n
  | JFloat r => r
  | JString s => repr_str s
  | JList items => "[" ++ String.concat ", " (map py_repr items) ++ "]"
  | JDict entries =>
      "{" ++ String.concat ", "
               (map (fun kv => let '(k, x) := kv in
                               repr_str k ++ ": " ++ py_repr x) entries)
          ++ "}"
  end.

(** [str(v)] *)
Definition py_str (v : JSON) : string :=
  match v with
  | JString s => s
  | _ => py_repr v
  end.

(** ** Exceptions, the outside world and effects *)

(** The classes of the exceptions that can reach [ask_llm]; each of them
    derives from [Exception]. *)
Inductive exn_class : Type :=
| RuntimeError
| AttributeError
| TypeError
| RequestException
| JSONDecodeError.

(** An exception: its class and the text [str(e)] gives. *)
Record exn : Type := Exn { exn_kind : exn_class; exn_str : string }.

Inductive result (A : Type) : Type :=
| Return (a : A)
| Raise (e : exn).
Arguments Return {A} a.
Arguments Raise {A} e.

(** The arguments of one [requests.post] call. *)
Record Request : Type := {
  req_url : string;
  req_headers : list (string * string);
  req_json : JSON;
  req_timeout : Z
}.

(** What [resp.json()] does: return the decoded body or raise. *)
Inductive body : Type :=
| Decoded (data : JSON)
| Undecodable (msg : string).

Record Response : Type := {
  status_code : Z;
  text : string;
  json : body
}.

(** [resp.ok]: the status is no client or server error. *)
Definition ok (resp : Response) : bool :=
  negb ((400 <=? status_code resp)%Z && (status_code resp <? 600)%Z).

(** What [requests.post] does: return a response or raise (connection
    refused, timeout, ...). *)
Inductive post_outcome : Type :=
| Responded (resp : Response)
| PostRaised (msg : string).

Inductive event : Type :=
| Getenv (name : string)
| Post (req : Request).

(** The process environment, and the network as it answers a request after
    the events so far. *)
Record World : Type := {
  environ : string -> option string;
  network : list event -> Request -> post_outcome
}.

(** A computation: from the world and the trace so far to a result and the
    extended trace. *)
Definition M (A : Type) : Type := World -> list event -> result A * list event.

Definition ret {A} (a : A) : M A := fun _ tr => (Return a, tr).

Definition raise {A} (e : exn) : M A := fun _ tr => (Raise e, tr).

Definition bind {A B} (c : M A) (k : A -> M B) : M B :=
  fun w tr =>
    match c w tr with
    | (Return a, tr') => k a w tr'
    | (Raise e, tr') => (Raise e, tr')
    end.

(** [try: c  except Exception as e: handler e] *)
Definition try_except {A} (c : M A) (handler : exn -> M A) : M A :=
  fun w tr =>
    match c w tr with
    | (Return a, tr') => (Return a, tr')
    | (Raise e, tr') => handler e w tr'
    end.

(** A pure step that may raise. *)
Definition lift {A} (r : result A) : M A := fun _ tr => (r, tr).

Notation "x <- c ;; k" := (bind c (fun x => k))
  (at level 61, c at next level, right associativity).

(** [os.getenv(name)] *)
Definition os_getenv (name : string) : M (option string) :=
  fun w tr => (Return (environ w name), (tr ++ [Getenv name])%list).

(** [os.getenv(name, default)] *)
Definition os_getenv_default (name default : string) : M string :=
  v <- os_getenv name ;;
  ret (match v with Some s => s | None => default end).

(** [requests.post(url, headers=headers, json=payload, timeout=timeout)] *)
Definition requests_post (url : string) (headers : list (string * string))
    (payload : JSON) (timeout : Z) : M Response :=
  fun w tr =>
    let req := {| req_url := url; req_headers := headers;
                  req_json := payload; req_timeout := timeout |} in
    (match network w tr req with
     | Responded resp => Return resp
     | PostRaised msg => Raise (Exn RequestException msg)
     end, (tr ++ [Post req])%list).

(** [resp.json()] *)
Definition resp_json (resp : Response) : M JSON :=
  match json resp with
  | Decoded data => ret data
  | Undecodable msg => raise (Exn JSONDecodeError msg)
  end.

(** Truth value of what [os.getenv] returns: [None] and the empty string
    are false. *)
Definition truthy (v : option string) : bool :=
  match v with
  | Some (String _ _) => true
  | _ => false
  end.

(** ** Provider adapters *)

(** [v.strip()] on an object: only a [str] has the method. *)
Definition method_strip (v : JSON) : result string :=
  match v with
  | JString s => Return (str_strip s)
  | _ => Raise (Exn AttributeError
                  ("'" ++ type_name v ++ "' object has no attribute 'strip'"))
  end.

Definition str_of_nat (n : nat) : string := str_of_int (Z.of_nat n).

(** ["".join(parts)] from item [i] on: every item has to be a [str]. *)
Fixpoint join_parts (i : nat) (parts : list JSON) : result string :=
  match parts with
  | [] => Return EmptyString
  | JString s :: rest =>
      match join_parts (S i) rest with
      | Return t => Return (s ++ t)
      | Raise e => Raise e
      end
  | v :: _ =>
      Raise (Exn TypeError
               ("sequence item " ++ str_of_nat i ++ ": expected str instance, "
                ++ type_name v ++ " found"))
  end.

(** One item of the comprehension over [content]:
    [p.get("text", "") if isinstance(p, dict) else str(p)]. *)
Definition part_text (p : JSON) : JSON :=
  match p with
  | JDict d =>
      match dict_get "text" d with
      | Some v => v
      | None => JString EmptyString
      end
  | _ => JString (py_str p)
  end.

(** The branch on [candidates]: [None] when control falls through. *)
Definition from_candidates (data : list (string * JSON)) : option (result string) :=
  match dict_get "candidates" data with
  | Some (JList (first :: _)) =>
      match first with
      | JDict f =>
          match dict_get "output" f with
          | Some v => Some (method_strip v)
          | None => None
          end
      | _ => None
      end
  | _ => None
  end.

(** The branch on [outputs]: [None] when control falls through. *)
Definition from_outputs (data : list (string * JSON)) : option (result string) :=
  match dict_get "outputs" data with
  | Some (JList (out0 :: _)) =>
      match out0 with
      | JDict o =>
          match dict_get "content" o with
          | Some (JList content) =>
              Some (match join_parts 0 (map part_text content) with
                    | Return s => Return (str_strip s)
                    | Raise e => Raise e
                    end)
          | Some content => Some (Return (str_strip (py_str content)))
          | None => None
          end
      | _ => None
      end
  | _ => None
  end.

(** The part of [send_to_gemini] after [data = resp.json()]. *)
Definition gemini_text (data : JSON) : result string :=
  match data with
  | JDict d =>
      match from_candidates d with
      | Some r => r
      | None =>
          match from_outputs d with
          | Some r => r
          | None =>
              match dict_get "output" d with
              | Some v => Return (str_strip (py_str v))
              | None =>
                  match dict_get "text" d with
                  | Some v => Return (str_strip (py_str v))
                  | None => Return (json_dumps data)
                  end
              end
          end
      end
  | _ => Return (json_dumps data)
  end.

Definition send_to_gemini (prompt : string) : M string :=
  google <- os_getenv "GOOGLE_API_KEY" ;;
  api_key <- (if truthy google then ret google else os_getenv "GEMINI_API_KEY") ;;
  match api_key with
  | Some (String _ _ as api_key) =>
      model <- os_getenv_default "GEMINI_MODEL" "models/text-bison-001" ;;
      base <- os_getenv_default "GEMINI_BASE_URL"
                "https://generativelanguage.googleapis.com/v1/" ;;
      let base := if negb (str_endswith base "/") then base ++ "/" else base in
      let url := base ++ model ++ ":generateText?key=" ++ api_key in
      let payload :=
        JDict [("prompt", JDict [("text", JString prompt)]);
               ("temperature", JFloat "0.2");
               ("maxOutputTokens", JInt 512)] in
      let headers := [("Content-Type", "application/json")] in
      resp <- requests_post url headers payload 60 ;;
      if negb (ok resp) then
        raise (Exn RuntimeError
                 ("Gemini API error: " ++ str_of_int (status_code resp)
                  ++ " " ++ text resp))
      else
        data <- resp_json resp ;;
        lift (gemini_text data)
  | _ => raise (Exn RuntimeError "GOOGLE_API_KEY (or GEMINI_API_KEY) not set")
  end.

(** The part of [send_to_huggingface] after [out = resp.json()]. *)
Definition huggingface_text (out : JSON) : JSON :=
  match out with
  | JList (JDict first :: _) =>
      match dict_get "generated_text" first with
      | Some v => v
      | None => JString (json_dumps out)
      end
  | _ => JString (json_dumps out)
  end.

Definition send_to_huggingface (prompt : string) : M JSON :=
  token <- os_getenv "HUGGINGFACE_API_TOKEN" ;;
  match token with
  | Some (String _ _ as token) =>
      let url := "https://api-inference.huggingface.co/models/google/flan-t5-large" in
      let headers := [("Authorization", "Bearer " ++ token)] in
      let data := JDict [("inputs", JString prompt)] in
      resp <- requests_post url headers data 60 ;;
      if negb (ok resp) then
        raise (Exn RuntimeError
                 ("HuggingFace API error: " ++ str_of_int (status_code resp)
                  ++ " " ++ text resp))
      else
        out <- resp_json resp ;;
        ret (huggingface_text out)
  | _ => raise (Exn RuntimeError "HUGGINGFACE_API_TOKEN not set")
  end.

(** ** Fallback orchestrator *)

Record AnswerRecord : Type := {
  question : string;
  processed : string;
  prompt : string;
  answer : JSON;
  source : string;
  errors : list string
}.

(** The first literal of the simulated answer; its dash is U+2014. *)
Definition simulated_prefix : string :=
  "[SIMULATED RESPONSE — no API key configured] ".

Definition ask_llm (question : string) : M AnswerRecord :=
  let processed := preprocess question in
  let prompt := construct_prompt processed in
  let errors : list string := [] in
  outcome <-
    try_except
      (answer <- send_to_gemini prompt ;;
       ret (JString answer, "gemini", errors))
      (fun e =>
         let errors := (errors ++ [exn_str e])%list in
         try_except
           (answer <- send_to_huggingface prompt ;;
            ret (answer, "huggingface", errors))
           (fun e2 =>
              let errors := (errors ++ [exn_str e2])%list in
              ret (JString (simulated_prefix ++ "Processed question: " ++ processed),
                   "simulated", errors))) ;;
  let '(answer, source, errors) := outcome in
  ret {| question := question; processed := processed; prompt := prompt;
         answer := answer; source := source; errors := errors |}.

(** ** Specification vocabulary *)

Definition nospace (tok : list ascii) : Prop :=
  Forall (fun c => isspace c = false) tok.

Definition allspace (cs : list ascii) : Prop :=
  Forall (fun c => isspace c = true) cs.

(** Splitting on whitespace, as a relation: leading whitespace is skipped,
    and a token is a non-empty run of characters that are not whitespace,
    ended by a whitespace character or by the end of the text. *)
Inductive Tokens : list ascii -> list (list ascii) -> Prop :=
| Tokens_end : Tokens [] []
| Tokens_skip c cs toks :
    isspace c = true -> Tokens cs toks -> Tokens (c :: cs) toks
| Tokens_token tok cs toks :
    tok <> [] ->
    nospace tok ->
    (cs = [] \/ exists c cs', cs = c :: cs' /\ isspace c = true) ->
    Tokens cs toks ->
    Tokens (tok ++ cs)%list (tok :: toks).

(** [needle in haystack] for two [str]. *)
Definition contains (haystack needle : string) : Prop :=
  exists before after, haystack = before ++ needle ++ after.

(** [" ".join(tokens)] on lists of characters. *)
Fixpoint join_chars (toks : list (list ascii)) : list ascii :=
  match toks with
  | [] => []
  | tok :: rest =>
      match rest with
      | [] => tok
      | _ :: _ => (tok ++ " "%char :: join_chars rest)%list
      end
  end.

(** [os.getenv(name, default)] as a value. *)
Definition getenv_default (w : World) (name default : string) : string :=
  match environ w name with
  | Some s => s
  | None => default
  end.

(** The request [send_to_gemini] posts with the credential [api_key]. *)
Definition gemini_request (w : World) (api_key prompt : string) : Request :=
  let model := getenv_default w "GEMINI_MODEL" "models/text-bison-001" in
  let base := getenv_default w "GEMINI_BASE_URL"
                "https://generativelanguage.googleapis.com/v1/" in
  let base := if negb (str_endswith base "/") then base ++ "/" else base in
  {| req_url := base ++ model ++ ":generateText?key=" ++ api_key;
     req_headers := [("Content-Type", "application/json")];
     req_json := JDict [("prompt", JDict [("text", JString prompt)]);
                        ("temperature", JFloat "0.2");
                        ("maxOutputTokens", JInt 512)];
     req_timeout := 60 |}.

(** What [send_to_gemini] makes of the outcome of its request. *)
Definition gemini_outcome (o : post_outcome) : result string :=
  match o with
  | PostRaised msg => Raise (Exn RequestException msg)
  | Responded resp =>
      if ok resp then
        match json resp with
        | Decoded data => gemini_text data
        | Undecodable msg => Raise (Exn JSONDecodeError msg)
        end
      else Raise (Exn RuntimeError
                    ("Gemini API error: " ++ str_of_int (status_code resp)
                     ++ " " ++ text resp))
  end.

(** The request itself, posted after the events [h]. *)
Definition gemini_exchange (w : World) (api_key prompt : string)
    (h : list event) : result string * list event :=
  (gemini_outcome (network w h (gemini_request w api_key prompt)),
   (h ++ [Post (gemini_request w api_key prompt)])%list).

(** The same three for [send_to_huggingface]. *)
Definition huggingface_request (token prompt : string) : Request :=
  {| req_url := "https://api-inference.huggingface.co/models/google/flan-t5-large";
     req_headers := [("Authorization", "Bearer " ++ token)];
     req_json := JDict [("inputs", JString prompt)];
     req_timeout := 60 |}.

Definition huggingface_outcome (o : post_outcome) : result JSON :=
  match o with
  | PostRaised msg => Raise (Exn RequestException msg)
  | Responded resp =>
      if ok resp then
        match json resp with
        | Decoded out => Return (huggingface_text out)
        | Undecodable msg => Raise (Exn JSONDecodeError msg)
        end
      else Raise (Exn RuntimeError
                    ("HuggingFace API error: " ++ str_of_int (status_code resp)
                     ++ " " ++ text resp))
  end.

Definition huggingface_exchange (w : World) (token prompt : string)
    (h : list event) : result JSON * list event :=
  (huggingface_outcome (network w h (huggingface_request token prompt)),
   (h ++ [Post (huggingface_request token prompt)])%list).

(** Provider B was invoked during the events [evs]: [send_to_huggingface]
    starts by reading its token, and nothing else reads it. *)
Definition huggingface_invoked (evs : list event) : Prop :=
  In (Getenv "HUGGINGFACE_API_TOKEN") evs.

(** No credential is configured. *)
Definition no_credentials (w : World) : Prop :=
  truthy (environ w "GOOGLE_API_KEY") = false
  /\ truthy (environ w "GEMINI_API_KEY") = false
  /\ truthy (environ w "HUGGINGFACE_API_TOKEN") = false.

(** The body [{"candidates":[{"output":"Paris"}]}]. *)
Definition paris_body : JSON :=
  JDict [("candidates", JList [JDict [("output", JString "Paris")]])].

(** The shapes of a decoded body.  The first object of a list: *)
Definition first_object (v : option JSON) : option (list (string * JSON)) :=
  match v with
  | Some (JList (JDict o :: _)) => Some o
  | _ => None
  end.

(** [candidates] is a list whose first element is an object with an
    [output] field. *)
Definition candidates_output (d : list (string * JSON)) : option JSON :=
  match first_object (dict_get "candidates" d) with
  | Some first => dict_get "output" first
  | None => None
  end.

(** [outputs] is a list whose first element is an object with a [content]
    field. *)
Definition outputs_content (d : list (string * JSON)) : option JSON :=
  match first_object (dict_get "outputs" d) with
  | Some out0 => dict_get "content" out0
  | None => None
  end.

Definition is_some {A} (o : option A) : bool :=
  match o with
  | Some _ => true
  | None => false
  end.

(** The body has one of the shapes [send_to_gemini] recognizes. *)
Definition recognized (data : JSON) : bool :=
  match data with
  | JDict d =>
      is_some (candidates_output d) || is_some (outputs_content d)
      || is_some (dict_get "output" d) || is_some (dict_get "text" d)
  | _ => false
  end.

(** The body is a list whose first element is an object with a
    [generated_text] field. *)
Definition first_generated_text (out : JSON) : option JSON :=
  match out with
  | JList (JDict first :: _) => dict_get "generated_text" first
  | _ => None
  end.

(** The request raised, or the status of the response is an error, or the
    body of a successful response is not JSON. *)
Definition exchange_failed (o : post_outcome) : Prop :=
  match o with
  | PostRaised _ => True
  | Responded resp => ok resp = false \/ exists msg, json resp = Undecodable msg
  end.

Definition is_str (v : JSON) : bool :=
  match v with
  | JString _ => true
  | _ => false
  end.

(** A fragment of [content] that is an object whose [text] is no string. *)
Definition fragment_not_str (p : JSON) : bool :=
  match p with
  | JDict o =>
      match dict_get "text" o with
      | Some v => negb (is_str v)
      | None => false
      end
  | _ => false
  end.

(** The text that the [candidates] branch, or else the [outputs] branch,
    finds in the body is no string. *)
Definition text_not_str (d : list (string * JSON)) : bool :=
  match candidates_output d with
  | Some v => negb (is_str v)
  | None =>
      match outputs_content d with
      | Some (JList content) => existsb fragment_not_str content
      | _ => false
      end
  end.

(** The response is successful and the text found in its body is no
    string. *)
Definition ill_typed (o : post_outcome) : Prop :=
  match o with
  | PostRaised _ => False
  | Responded resp =>
      ok resp = true
      /\ exists d, json resp = Decoded (JDict d) /\ text_not_str d = true
  end.

(** ** Sample worlds *)

Definition setenv (name value : string) (env : string -> option string)
    : string -> option string :=
  fun n => if String.eqb n name then Some value else env n.

Definition empty_env : string -> option string := fun _ => None.

(** Nothing configured, no network. *)
Definition world_unconfigured : World :=
  {| environ := empty_env;
     network := fun _ _ => PostRaised "connection refused" |}.

(** Provider A configured and answering with [paris_body]. *)
Definition world_paris : World :=
  {| environ := setenv "GOOGLE_API_KEY" "key-a" empty_env;
     network := fun _ _ =>
       Responded {| status_code := 200; text := "(body)";
                    json := Decoded paris_body |} |}.

(** Both providers configured; Provider A answers 403, Provider B answers
    with a generated text. *)
Definition world_forbidden : World :=
  {| environ := setenv "GEMINI_API_KEY" "key-a"
                  (setenv "HUGGINGFACE_API_TOKEN" "token-b" empty_env);
     network := fun _ req =>
       if String.prefix "https://api-inference.huggingface.co/" (req_url req)
       then Responded {| status_code := 200; text := "(body)";
                         json := Decoded (JList [JDict [("generated_text",
                                                         JString "Paris")]]) |}
       else Responded {| status_code := 403; text := "Forbidden";
                         json := Undecodable "Expecting value" |} |}.

(** Both providers configured; every request times out. *)
Definition world_timeout : World :=
  {| environ := setenv "GOOGLE_API_KEY" "key-a"
                  (setenv "HUGGINGFACE_API_TOKEN" "token-b" empty_env);
     network := fun _ _ => PostRaised "Read timed out. (read timeout=60)" |}.

(** Both providers configured; every answer is a page of HTML with status
    200. *)
Definition world_html : World :=
  {| environ := setenv "GOOGLE_API_KEY" "key-a"
                  (setenv "HUGGINGFACE_API_TOKEN" "token-b" empty_env);
     network := fun _ _ =>
       Responded {| status_code := 200; text := "<html></html>";
                    json := Undecodable
                      "Expecting value: line 1 column 1 (char 0)" |} |}.

(** Both providers configured; every answer has status 200 and the body
    [{"error": null}], a shape no adapter knows. *)
Definition unknown_body : JSON := JDict [("error", JNull)].

Definition world_unknown : World :=
  {| environ := setenv "GOOGLE_API_KEY" "key-a"
                  (setenv "HUGGINGFACE_API_TOKEN" "token-b" empty_env);
     network := fun _ _ =>
       Responded {| status_code := 200; text := "(body)";
                    json := Decoded unknown_body |} |}.

(** ** Front ends *)

(** *** The command line, [main] of [LLM_QA_CLI.py] *)

(** The values [--provider] accepts. *)
Inductive provider : Type :=
| ProviderGemini
| ProviderHuggingface
| ProviderOpenai.

(** What [parser.parse_args()] returns: [question] is [None] without [-q]
    and the list of its words with it; [provider] defaults to [gemini]. *)
Record Args : Type := {
  args_question : option (list string);
  args_api_key : option string;
  args_provider : provider;
  args_model : option string
}.

(** [os.environ[name] = value] *)
Definition environ_set (name value : string) (w : World) : World :=
  {| environ := setenv name value (environ w); network := network w |}.

(** The assignments to [os.environ] at the start of [main]. *)
Definition configure (args : Args) (w : World) : World :=
  let w :=
    match args_api_key args with
    | Some (String _ _ as api_key) =>
        match args_provider args with
        | ProviderGemini =>
            environ_set "GEMINI_API_KEY" api_key
              (environ_set "GOOGLE_API_KEY" api_key w)
        | ProviderHuggingface => environ_set "HUGGINGFACE_API_TOKEN" api_key w
        | ProviderOpenai => environ_set "OPENAI_API_KEY" api_key w
        end
    | _ => w
    end in
  match args_model args with
  | Some (String _ _ as model) => environ_set "GEMINI_MODEL" model w
  | _ => w
  end.

(** The five [print] calls, one string written each. *)
Definition report (result : AnswerRecord) : list string :=
  [LF ++ "--- LLM Q&A Result ---" ++ LF;
   "Original Question: " ++ question result ++ LF;
   "Processed Question: " ++ processed result ++ LF;
   "Source: " ++ source result ++ LF;
   LF ++ "Answer:" ++ LF ++ " " ++ py_str (answer result) ++ LF].

(** How a run of [main] ends: it returns, [input] raises [EOFError], or an
    exception of [ask_llm] goes through. *)
Inductive main_exit : Type :=
| Returned
| RaisedEOFError
| RaisedFrom (e : exn).

Record main_run : Type := {
  run_exit : main_exit;
  run_stdout : list string;
  run_world : World;
  run_trace : list event
}.

(** [main], given the parsed arguments and the line [input] would read
    ([None] at the end of the input). *)
Definition main (args : Args) (line : option string) (w : World)
    (tr : list event) : main_run :=
  let w := configure args w in
  let ask (out : list string) (question : string) : main_run :=
    match ask_llm question w tr with
    | (Return result, tr') =>
        {| run_exit := Returned; run_stdout := (out ++ report result)%list;
           run_world := w; run_trace := tr' |}
    | (Raise e, tr') =>
        {| run_exit := RaisedFrom e; run_stdout := out;
           run_world := w; run_trace := tr' |}
    end in
  match args_question args with
  | Some ((_ :: _) as words) => ask [] (str_join " " words)
  | _ =>
      match line with
      | Some question => ask ["Enter your question: "] question
      | None =>
          {| run_exit := RaisedEOFError; run_stdout := ["Enter your question: "];
             run_world := w; run_trace := tr |}
      end
  end.

(** *** The web form, [index] of [app.py] *)

(** What the handler reads of the request. *)
Record FormRequest : Type := {
  request_method : string;
  request_form : list (string * string)
}.

(** [request.form.get(key, default)] *)
Fixpoint form_get (key default : string) (form : list (string * string)) : string :=
  match form with
  | [] => default
  | (k, v) :: form' => if String.eqb k key then v else form_get key default form'
  end.

(** The arguments of [render_template]. *)
Record Page : Type := {
  page_template : string;
  page_question : string;
  page_result : option AnswerRecord;
  page_error : option string
}.

Section WebForm.

(** [traceback.format_exc()] while the exception is handled. *)
Variable format_exc : exn -> string.

Definition index (request : FormRequest) (w : World) (tr : list event)
    : Page * list event :=
  let render question result error tr' :=
    ({| page_template := "index.html"; page_question := question;
        page_result := result; page_error := error |}, tr') in
  if String.eqb (request_method request) "POST" then
    let question := str_strip (form_get "question" EmptyString (request_form request)) in
    match question with
    | String _ _ =>
        match ask_llm question w tr with
        | (Return result, tr') => render question (Some result) None tr'
        | (Raise e, tr') =>
            render question None (Some (exn_str e ++ LF ++ format_exc e)) tr'
        end
    | EmptyString => render question None None tr
    end
  else render EmptyString None None tr.

End WebForm.

(** ** Further specification vocabulary *)

(** One word, cleaned the way [preprocess] cleans a text. *)
Definition clean_word (word : string) : string := re_sub_punct (str_lower word).

Definition nonempty (s : string) : bool :=
  match s with
  | EmptyString => false
  | String _ _ => true
  end.

(** The requests among some events, in order. *)
Fixpoint posts (evs : list event) : list Request :=
  match evs with
  | [] => []
  | Post req :: evs' => req :: posts evs'
  | Getenv _ :: evs' => posts evs'
  end.

(** The names some events read from the environment, in order. *)
Fixpoint reads (evs : list event) : list string :=
  match evs with
  | [] => []
  | Getenv name :: evs' => name :: reads evs'
  | Post _ :: evs' => reads evs'
  end.

(** The five names the adapters read. *)
Definition adapter_variables : list string :=
  ["GOOGLE_API_KEY"; "GEMINI_API_KEY"; "GEMINI_MODEL"; "GEMINI_BASE_URL";
   "HUGGINGFACE_API_TOKEN"].

(** Two worlds with the same network that agree on the names [names]. *)
Definition same_on (names : list string) (w w' : World) : Prop :=
  network w = network w' /\ forall name, In name names -> environ w name = environ w' name.

(** How many times a character occurs. *)
Definition count_char (c : ascii) (s : string) : nat :=
  List.length (filter (Ascii.eqb c) (chars s)).

(** The characters of a text, cleaned the way [preprocess] cleans them. *)
Definition clean_chars (l : list ascii) : list ascii :=
  filter word_or_space (map lower_char l).

Definition is_nil {A} (l : list A) : bool :=
  match l with
  | [] => true
  | _ :: _ => false
  end.

(** A text that starts with no whitespace. *)
Definition head_nonspace (cs : list ascii) : Prop :=
  match cs with
  | [] => True
  | c :: _ => isspace c = false
  end.

(** Tokens as [str.split] gives them: not empty, free of whitespace. *)
Definition good_tokens (toks : list (list ascii)) : Prop :=
  Forall (fun tok => tok <> [] /\ nospace tok) toks.

(** The prompt a request carries: the [text] of its [prompt] for Provider
    A, its [inputs] for Provider B. *)
Definition request_prompt (req : Request) : option JSON :=
  match req_json req with
  | JDict d =>
      match dict_get "inputs" d with
      | Some v => Some v
      | None =>
          match dict_get "prompt" d with
          | Some (JDict t) => dict_get "text" t
          | _ => None
          end
      end
  | _ => None
  end.

(** The base of the endpoint of Provider A, its final slash ensured. *)
Definition gemini_base (w : World) : string :=
  let base := getenv_default w "GEMINI_BASE_URL"
                "https://generativelanguage.googleapis.com/v1/" in
  if str_endswith base "/" then base else base ++ "/".

(** The question [main] asks: the words of [-q] joined by spaces when there
    is at least one, else the line read from the input. *)
Definition asked_question (args : Args) (line : option string) : option string :=
  match args_question args with
  | Some ((_ :: _) as words) => Some (str_join " " words)
  | _ => line
  end.

(** What [main] writes before it asks: the prompt of [input], if it reads
    the question from the input. *)
Definition input_prompt (args : Args) : list string :=
  match args_question args with
  | Some (_ :: _) => []
  | _ => ["Enter your question: "]
  end.

(** The same arguments without [--api-key]. *)
Definition without_api_key (args : Args) : Args :=
  {| args_question := args_question args; args_api_key := None;
     args_provider := args_provider args; args_model := args_model args |}.

(** The question a form request submits, stripped. *)
Definition submitted_question (request : FormRequest) : string :=
  str_strip (form_get "question" EmptyString (request_form request)).

(** * Properties *)

(** ** Character tables *)

Ltac by_cases_on c := destruct c as [[] [] [] [] [] [] [] []]; reflexivity.

Lemma lower_char_idempotent (c : ascii) : lower_char (lower_char c) = lower_char c.
Proof. by_cases_on c. Qed.

Lemma isspace_lower_char (c : ascii) : isspace (lower_char c) = isspace c.
Proof. by_cases_on c. Qed.

(** ** Strings as lists of characters *)

Lemma chars_of_chars (l : list ascii) : chars (of_chars l) = l.
Proof. apply list_ascii_of_string_of_list_ascii. Qed.

Lemma of_chars_chars (s : string) : of_chars (chars s) = s.
Proof. apply string_of_list_ascii_of_string. Qed.

Lemma chars_append (s t : string) : chars (s ++ t) = (chars s ++ chars t)%list.
Proof. induction s as [|c s IH]; simpl; [reflexivity | now rewrite <- IH]. Qed.

Lemma of_chars_app (l m : list ascii) : of_chars (l ++ m) = of_chars l ++ of_chars m.
Proof. induction l as [|c l IH]; simpl; [reflexivity | now rewrite <- IH]. Qed.

Lemma append_assoc (s t u : string) : (s ++ t) ++ u = s ++ t ++ u.
Proof. induction s as [|c s IH]; simpl; [reflexivity | now rewrite IH]. Qed.

Lemma chars_inj (s t : string) : chars s = chars t -> s = t.
Proof.
  intros H. rewrite <- (of_chars_chars s), <- (of_chars_chars t). now rewrite H.
Qed.

Lemma append_inv_tail (s t u : string) : s ++ u = t ++ u -> s = t.
Proof.
  intros H. apply chars_inj. apply (f_equal chars) in H.
  rewrite !chars_append in H. now apply app_inv_tail in H.
Qed.

Lemma append_inv_head (s t u : string) : u ++ s = u ++ t -> s = t.
Proof.
  induction u as [|c u IH]; simpl; intros H; [assumption|].
  injection H as H. now apply IH.
Qed.

(** ** [str.split] and [str.join] *)

Lemma split_from_tokens (cs tok : list ascii) :
  nospace tok -> Tokens (tok ++ cs) (split_from tok cs).
Proof.
  revert tok. induction cs as [|c cs IH]; intros tok Htok; simpl.
  - rewrite app_nil_r. destruct tok as [|a tok]; simpl.
    + constructor.
    + assert (H : Tokens ((a :: tok) ++ []) [a :: tok]).
      { apply Tokens_token; [discriminate | assumption | now left | constructor]. }
      now rewrite app_nil_r in H.
  - destruct (isspace c) eqn:Hc.
    + assert (Hrest : Tokens (c :: cs) (split_from [] cs)).
      { apply Tokens_skip; [assumption|]. apply (IH []). constructor. }
      destruct tok as [|a tok]; simpl; [assumption|].
      apply (Tokens_token (a :: tok)); [discriminate | assumption | | assumption].
      right. now exists c, cs.
    + replace (tok ++ c :: cs)%list with ((tok ++ [c]) ++ cs)%list
        by now rewrite <- app_assoc.
      apply IH. apply Forall_app. split; [assumption|]. now repeat constructor.
Qed.

Lemma split_chars_tokens (cs : list ascii) : Tokens cs (split_chars cs).
Proof. apply (split_from_tokens cs []). constructor. Qed.

Lemma run_unique (t1 t2 cs1 cs2 : list ascii) :
  nospace t1 -> nospace t2 ->
  (cs1 = [] \/ exists c cs', cs1 = c :: cs' /\ isspace c = true) ->
  (cs2 = [] \/ exists c cs', cs2 = c :: cs' /\ isspace c = true) ->
  (t1 ++ cs1 = t2 ++ cs2)%list -> t1 = t2 /\ cs1 = cs2.
Proof.
  revert t2. induction t1 as [|a t1 IH]; intros [|b t2] H1 H2 B1 B2 E; simpl in E.
  - now split.
  - exfalso. inversion H2 as [|? ? Hb _]; subst.
    destruct B1 as [B1 | (c & cs' & B1 & Hc)]; [discriminate|].
    injection B1 as -> _. congruence.
  - exfalso. inversion H1 as [|? ? Ha _]; subst.
    destruct B2 as [B2 | (c & cs' & B2 & Hc)]; [discriminate|].
    injection B2 as -> _. congruence.
  - injection E as -> E. inversion H1; inversion H2; subst.
    destruct (IH t2) as [-> ->]; auto.
Qed.

(** The relation determines the tokens. *)
Lemma Tokens_functional (cs : list ascii) (toks1 toks2 : list (list ascii)) :
  Tokens cs toks1 -> Tokens cs toks2 -> toks1 = toks2.
Proof.
  intros H1. revert toks2.
  induction H1 as [|c cs toks Hc _ IH|tok cs toks Hne Hns Hb _ IH]; intros toks2 H2.
  - inversion H2 as [| |tok ? ? Hne ? ? ? E]; [reflexivity|].
    destruct tok; [congruence | discriminate].
  - inversion H2 as [|? ? ? ? H2'|tok ? ? Hne Hns ? ? E]; subst.
    + now apply IH.
    + destruct tok as [|a tok]; [congruence|]. simpl in E. injection E as -> _.
      inversion Hns; congruence.
  - inversion H2 as [E|c ? ? Hc ? E|tok2 cs2 ? ? Hns2 Hb2 H2' E]; subst.
    + destruct tok; [congruence | discriminate].
    + destruct tok as [|a tok]; [congruence|]. simpl in E. injection E as -> _.
      inversion Hns; congruence.
    + destruct (run_unique tok2 tok cs2 cs) as [-> ->]; auto.
      f_equal. now apply IH.
Qed.

Lemma Tokens_shape (cs : list ascii) (toks : list (list ascii)) :
  Tokens cs toks ->
  Forall (fun tok => tok <> [] /\ nospace tok /\ incl tok cs) toks.
Proof.
  induction 1 as [|c cs toks Hc _ IH|tok cs toks Hne Hns Hb _ IH].
  - constructor.
  - eapply Forall_impl; [|exact IH]. intros t (? & ? & Hin).
    repeat split; auto. now apply incl_tl.
  - constructor.
    + repeat split; auto. now apply incl_appl.
    + eapply Forall_impl; [|exact IH]. intros t (? & ? & Hin).
      repeat split; auto. now apply incl_appr.
Qed.

Lemma split_from_run (t tok cs : list ascii) :
  nospace t -> split_from tok (t ++ cs) = split_from (tok ++ t) cs.
Proof.
  revert tok. induction t as [|a t IH]; intros tok Ht; simpl.
  - now rewrite app_nil_r.
  - inversion Ht as [|? ? Ha Ht']; subst. rewrite Ha, IH by assumption.
    now rewrite <- app_assoc.
Qed.

Lemma split_from_space (c : ascii) (tok cs : list ascii) :
  isspace c = true -> split_from tok (c :: cs) = (emit tok ++ split_from [] cs)%list.
Proof. intros H. simpl. now rewrite H. Qed.

Lemma split_chars_join (toks : list (list ascii)) :
  Forall (fun tok => tok <> [] /\ nospace tok) toks ->
  split_chars (join_chars toks) = toks.
Proof.
  unfold split_chars.
  induction toks as [|tok rest IH]; intros H; [reflexivity|].
  inversion H as [|? ? [Hne Hns] Hrest]; subst.
  destruct rest as [|tok' rest].
  - simpl. rewrite <- (app_nil_r tok) at 1. rewrite split_from_run by assumption.
    simpl. destruct tok; [congruence | reflexivity].
  - change (join_chars (tok :: tok' :: rest))
      with (tok ++ " "%char :: join_chars (tok' :: rest))%list.
    rewrite split_from_run, split_from_space by (assumption || reflexivity).
    rewrite IH by assumption. destruct tok; [congruence | reflexivity].
Qed.

Lemma concat_join_chars (toks : list (list ascii)) :
  String.concat " " (map of_chars toks) = of_chars (join_chars toks).
Proof.
  induction toks as [|tok rest IH]; [reflexivity|].
  destruct rest as [|tok' rest]; [reflexivity|].
  change (String.concat " " (map of_chars (tok :: tok' :: rest)))
    with (of_chars tok ++ " " ++ String.concat " " (map of_chars (tok' :: rest))).
  rewrite IH.
  change (join_chars (tok :: tok' :: rest))
    with (tok ++ " "%char :: join_chars (tok' :: rest))%list.
  now rewrite of_chars_app.
Qed.

Lemma In_join_chars (c : ascii) (toks : list (list ascii)) :
  In c (join_chars toks) -> c = " "%char \/ exists tok, In tok toks /\ In c tok.
Proof.
  induction toks as [|tok rest IH]; [intros []|].
  destruct rest as [|tok' rest].
  - simpl. intros H. right. exists tok. auto.
  - change (join_chars (tok :: tok' :: rest))
      with (tok ++ " "%char :: join_chars (tok' :: rest))%list.
    intros H. apply in_app_or in H. destruct H as [H | [H | H]].
    + right. exists tok. split; [now left | assumption].
    + now left.
    + destruct (IH H) as [-> | (t & Ht & Hc)]; [now left|].
      right. exists t. split; [now right | assumption].
Qed.

Lemma split_from_allspace (cs : list ascii) : allspace cs -> split_from [] cs = [].
Proof.
  induction 1 as [|c cs Hc _ IH]; simpl; [reflexivity|]. now rewrite Hc, IH.
Qed.

Lemma map_fixed {A} (f : A -> A) (l : list A) :
  (forall x, In x l -> f x = x) -> map f l = l.
Proof.
  induction l as [|x l IH]; simpl; intros H; [reflexivity|].
  rewrite H by now left. f_equal. apply IH. intros; apply H. now right.
Qed.

Lemma filter_all {A} (f : A -> bool) (l : list A) :
  (forall x, In x l -> f x = true) -> filter f l = l.
Proof.
  induction l as [|x l IH]; simpl; intros H; [reflexivity|].
  rewrite H by now left. f_equal. apply IH. intros; apply H. now right.
Qed.

(** ** Text normalizer *)

(** [preprocess] on lists of characters. *)
Lemma preprocess_chars (text : string) :
  preprocess text
  = of_chars (join_chars (split_chars
      (filter word_or_space (map lower_char (chars text))))).
Proof.
  unfold preprocess, str_join, str_split, re_sub_punct, str_lower.
  now rewrite !chars_of_chars, concat_join_chars.
Qed.

Lemma normalized_chars (text : string) (c : ascii) :
  In c (filter word_or_space (map lower_char (chars text))) ->
  lower_char c = c /\ word_or_space c = true.
Proof.
  intros H. apply filter_In in H. destruct H as [H Hw]. split; [|assumption].
  apply in_map_iff in H. destruct H as (c0 & <- & _). apply lower_char_idempotent.
Qed.

Lemma joined_chars (text : string) (c : ascii) :
  In c (join_chars (split_chars
          (filter word_or_space (map lower_char (chars text))))) ->
  lower_char c = c /\ word_or_space c = true.
Proof.
  intros H. apply In_join_chars in H. destruct H as [-> | (tok & Htok & Hc)].
  - now split.
  - pose proof (Tokens_shape _ _ (split_chars_tokens
      (filter word_or_space (map lower_char (chars text))))) as Hshape.
    rewrite Forall_forall in Hshape. destruct (Hshape tok Htok) as (_ & _ & Hin).
    apply (normalized_chars text). now apply Hin.
Qed.

(** C4. The normalizer is idempotent: normalizing a normalized string
    changes nothing, [preprocess (preprocess x) = preprocess x] for every
    input string [x]. *)
Theorem preprocess_idempotent (x : string) :
  preprocess (preprocess x) = preprocess x.
Proof.
  rewrite (preprocess_chars x), preprocess_chars, chars_of_chars.
  rewrite map_fixed by (intros c Hc; apply (joined_chars x c Hc)).
  rewrite filter_all by (intros c Hc; apply (joined_chars x c Hc)).
  rewrite split_chars_join; [reflexivity|].
  eapply Forall_impl; [|apply Tokens_shape, split_chars_tokens].
  intros tok (Hne & Hns & _). now split.
Qed.

(** C5. For every input string, [preprocess] lower-cases it, removes every
    character that is neither a word character nor whitespace, splits the
    result on whitespace and joins the tokens with single spaces.  So
    [preprocess "Hello, World!"] is ["hello world"], and an empty or
    whitespace-only input is accepted and yields the empty string. *)
Theorem preprocess_spec :
  (forall text : string,
     exists toks : list (list ascii),
       Tokens (filter word_or_space (map lower_char (chars text))) toks
       /\ preprocess text = String.concat " " (map of_chars toks))
  /\ preprocess "Hello, World!" = "hello world"
  /\ preprocess EmptyString = EmptyString
  /\ (forall text : string, allspace (chars text) -> preprocess text = EmptyString).
Proof.
  split; [|split; [reflexivity | split; [reflexivity|]]].
  - intros text.
    exists (split_chars (filter word_or_space (map lower_char (chars text)))).
    split; [apply split_chars_tokens|].
    now rewrite preprocess_chars, concat_join_chars.
  - intros text Hws. rewrite preprocess_chars. unfold split_chars.
    rewrite split_from_allspace; [reflexivity|].
    unfold allspace in *. rewrite Forall_forall in *. intros c Hc.
    apply filter_In in Hc. destruct Hc as [Hc _].
    apply in_map_iff in Hc. destruct Hc as (c0 & <- & Hc0).
    rewrite isspace_lower_char. now apply Hws.
Qed.

(** A whitespace-only input of C5, evaluated. *)
Lemma preprocess_spec_witness :
  allspace (chars "   ") /\ preprocess "   " = EmptyString.
Proof.
  assert (H : allspace (chars "   ")) by (repeat constructor).
  split; [exact H|].
  exact (proj2 (proj2 (proj2 preprocess_spec)) "   " H).
Defined.

(** Punctuation vanishes, a hyphen inside a word included. *)
Example preprocess_hyphen : preprocess "A well-known fact..." = "a wellknown fact".
Proof. reflexivity. Qed.

(** ** Prompt builder *)

(** C6. The prompt builder is injective: two different processed questions
    never give the same prompt. *)
Theorem construct_prompt_injective (p1 p2 : string) :
  p1 <> p2 -> construct_prompt p1 <> construct_prompt p2.
Proof.
  intros Hne Heq. apply Hne. unfold construct_prompt in Heq.
  do 3 apply append_inv_head in Heq. now apply append_inv_tail in Heq.
Qed.

(** C6 at two processed questions. *)
Lemma construct_prompt_injective_witness :
  "what is rust" <> "what is rocq"
  /\ construct_prompt "what is rust" <> construct_prompt "what is rocq".
Proof.
  assert (H : "what is rust" <> "what is rocq") by discriminate.
  split; [exact H|]. exact (construct_prompt_injective _ _ H).
Defined.

(** ** Runs of the adapters *)

Ltac run_adapter :=
  unfold send_to_gemini, send_to_huggingface, os_getenv_default, requests_post,
    resp_json, lift, bind, os_getenv, ret, raise.

Ltac finish_exchange w :=
  rewrite <- ?app_assoc; cbn [app];
  destruct (network w _ _) as [resp|msg]; [|reflexivity];
  destruct (ok resp); cbn [negb]; [|reflexivity];
  destruct (json resp); reflexivity.

Lemma truthy_false (v : option string) :
  truthy v = false -> v = None \/ v = Some EmptyString.
Proof. destruct v as [[|c s]|]; (discriminate || auto). Qed.

Lemma truthy_true (v : option string) :
  truthy v = true -> exists c s, v = Some (String c s).
Proof. destruct v as [[|c s]|]; try discriminate. intros _. now exists c, s. Qed.

(** [GOOGLE_API_KEY] is set: it is the credential, [GEMINI_API_KEY] is not
    read. *)
Lemma send_to_gemini_google (p : string) (w : World) (tr : list event)
    (c : ascii) (s : string) :
  environ w "GOOGLE_API_KEY" = Some (String c s) ->
  send_to_gemini p w tr =
    gemini_exchange w (String c s) p
      (tr ++ [Getenv "GOOGLE_API_KEY"; Getenv "GEMINI_MODEL";
              Getenv "GEMINI_BASE_URL"])%list.
Proof.
  intros H. run_adapter. rewrite H. cbn [truthy].
  unfold gemini_exchange, gemini_outcome, gemini_request, getenv_default.
  finish_exchange w.
Qed.

(** [GOOGLE_API_KEY] is unset or empty and [GEMINI_API_KEY] is set. *)
Lemma send_to_gemini_gemini (p : string) (w : World) (tr : list event)
    (c : ascii) (s : string) :
  truthy (environ w "GOOGLE_API_KEY") = false ->
  environ w "GEMINI_API_KEY" = Some (String c s) ->
  send_to_gemini p w tr =
    gemini_exchange w (String c s) p
      (tr ++ [Getenv "GOOGLE_API_KEY"; Getenv "GEMINI_API_KEY";
              Getenv "GEMINI_MODEL"; Getenv "GEMINI_BASE_URL"])%list.
Proof.
  intros HG H. run_adapter. rewrite HG, H.
  unfold gemini_exchange, gemini_outcome, gemini_request, getenv_default.
  finish_exchange w.
Qed.

(** Neither is set. *)
Lemma send_to_gemini_no_key (p : string) (w : World) (tr : list event) :
  truthy (environ w "GOOGLE_API_KEY") = false ->
  truthy (environ w "GEMINI_API_KEY") = false ->
  send_to_gemini p w tr =
    (Raise (Exn RuntimeError "GOOGLE_API_KEY (or GEMINI_API_KEY) not set"),
     (tr ++ [Getenv "GOOGLE_API_KEY"; Getenv "GEMINI_API_KEY"])%list).
Proof.
  intros HG H. run_adapter. rewrite HG.
  rewrite <- ?app_assoc; cbn [app].
  destruct (truthy_false _ H) as [-> | ->]; reflexivity.
Qed.

Lemma send_to_huggingface_token (p : string) (w : World) (tr : list event)
    (c : ascii) (s : string) :
  environ w "HUGGINGFACE_API_TOKEN" = Some (String c s) ->
  send_to_huggingface p w tr =
    huggingface_exchange w (String c s) p
      (tr ++ [Getenv "HUGGINGFACE_API_TOKEN"])%list.
Proof.
  intros H. run_adapter. rewrite H.
  unfold huggingface_exchange, huggingface_outcome, huggingface_request.
  finish_exchange w.
Qed.

Lemma send_to_huggingface_no_token (p : string) (w : World) (tr : list event) :
  truthy (environ w "HUGGINGFACE_API_TOKEN") = false ->
  send_to_huggingface p w tr =
    (Raise (Exn RuntimeError "HUGGINGFACE_API_TOKEN not set"),
     (tr ++ [Getenv "HUGGINGFACE_API_TOKEN"])%list).
Proof.
  intros H. run_adapter. destruct (truthy_false _ H) as [-> | ->]; reflexivity.
Qed.

(** The events of Provider A never include the token of Provider B. *)
Lemma send_to_gemini_events (p : string) (w : World) (tr : list event) :
  exists evs,
    snd (send_to_gemini p w tr) = (tr ++ evs)%list /\ ~ huggingface_invoked evs.
Proof.
  unfold huggingface_invoked.
  destruct (truthy (environ w "GOOGLE_API_KEY")) eqn:HG.
  - destruct (truthy_true _ HG) as (c & s & E).
    rewrite (send_to_gemini_google p w tr c s E). unfold gemini_exchange.
    cbn [snd]. rewrite <- app_assoc. eexists. split; [reflexivity|].
    cbn. intuition discriminate.
  - destruct (truthy (environ w "GEMINI_API_KEY")) eqn:HK.
    + destruct (truthy_true _ HK) as (c & s & E).
      rewrite (send_to_gemini_gemini p w tr c s HG E). unfold gemini_exchange.
      cbn [snd]. rewrite <- app_assoc. eexists. split; [reflexivity|].
      cbn. intuition discriminate.
    + rewrite (send_to_gemini_no_key p w tr HG HK). cbn [snd].
      eexists. split; [reflexivity|]. cbn. intuition discriminate.
Qed.

(** The events of Provider B start with the reading of its token. *)
Lemma send_to_huggingface_events (p : string) (w : World) (tr : list event) :
  exists evs,
    snd (send_to_huggingface p w tr)
    = (tr ++ Getenv "HUGGINGFACE_API_TOKEN" :: evs)%list.
Proof.
  destruct (truthy (environ w "HUGGINGFACE_API_TOKEN")) eqn:HT.
  - destruct (truthy_true _ HT) as (c & s & E).
    rewrite (send_to_huggingface_token p w tr c s E). unfold huggingface_exchange.
    cbn [snd]. rewrite <- app_assoc. eexists. reflexivity.
  - rewrite (send_to_huggingface_no_token p w tr HT). eexists. reflexivity.
Qed.

(** A status that is an error fails Provider A with a message that embeds
    the status code and the body. *)
Lemma send_to_gemini_status_error (p : string) (w : World) (tr : list event)
    (resp : Response) :
  truthy (environ w "GOOGLE_API_KEY") = true
  \/ truthy (environ w "GEMINI_API_KEY") = true ->
  (forall h key, network w h (gemini_request w key p) = Responded resp) ->
  ok resp = false ->
  fst (send_to_gemini p w tr)
  = Raise (Exn RuntimeError
             ("Gemini API error: " ++ str_of_int (status_code resp) ++ " "
              ++ text resp)).
Proof.
  intros Hkey Hnet Hok.
  assert (Hout : forall key h,
    fst (gemini_exchange w key p h)
    = Raise (Exn RuntimeError
               ("Gemini API error: " ++ str_of_int (status_code resp) ++ " "
                ++ text resp))).
  { intros key h. unfold gemini_exchange, gemini_outcome. cbn [fst].
    now rewrite Hnet, Hok. }
  destruct (truthy (environ w "GOOGLE_API_KEY")) eqn:HG.
  - destruct (truthy_true _ HG) as (c & s & E).
    now rewrite (send_to_gemini_google _ w tr c s E).
  - destruct Hkey as [Hkey | Hkey]; [discriminate|].
    destruct (truthy_true _ Hkey) as (c & s & E).
    now rewrite (send_to_gemini_gemini _ w tr c s HG E).
Qed.

(** With status 403 the message contains ["403"]. *)
Example status_403_message (body : string) :
  contains ("Gemini API error: " ++ str_of_int 403 ++ " " ++ body) "403".
Proof. exists "Gemini API error: ", (" " ++ body). reflexivity. Qed.

(** ** Shapes of the response *)

Lemma from_candidates_shape (d : list (string * JSON)) :
  from_candidates d =
    match candidates_output d with
    | Some v => Some (method_strip v)
    | None => None
    end.
Proof.
  unfold from_candidates, candidates_output, first_object.
  destruct (dict_get "candidates" d) as [[| | | | |[|[| | | | | |f] rest]|]|];
    reflexivity.
Qed.

Lemma from_outputs_shape (d : list (string * JSON)) :
  from_outputs d =
    match outputs_content d with
    | Some (JList content) =>
        Some (match join_parts 0 (map part_text content) with
              | Return s => Return (str_strip s)
              | Raise e => Raise e
              end)
    | Some content => Some (Return (str_strip (py_str content)))
    | None => None
    end.
Proof.
  unfold from_outputs, outputs_content, first_object.
  destruct (dict_get "outputs" d) as [[| | | | |[|[| | | | | |o] rest]|]|];
    reflexivity.
Qed.

Lemma from_outputs_none (d : list (string * JSON)) :
  outputs_content d = None -> from_outputs d = None.
Proof. intros H. now rewrite from_outputs_shape, H. Qed.

Lemma is_str_part_text (p : JSON) : is_str (part_text p) = negb (fragment_not_str p).
Proof.
  destruct p as [| | | | | |o]; try reflexivity. cbn.
  destruct (dict_get "text" o) as [v|]; [|reflexivity]. now rewrite negb_involutive.
Qed.

(** Joining raises only on an item that is no string. *)
Lemma join_parts_raises (content : list JSON) (i : nat) (e : exn) :
  join_parts i (map part_text content) = Raise e ->
  existsb fragment_not_str content = true.
Proof.
  revert i. induction content as [|p content IH]; intros i H; [discriminate|].
  cbn [map existsb] in *. destruct (fragment_not_str p) eqn:Hp; [reflexivity|].
  pose proof (is_str_part_text p) as Hs. rewrite Hp in Hs. cbn in Hs.
  destruct (part_text p); try discriminate. cbn in H.
  destruct (join_parts (S i) (map part_text content)) eqn:Hj; [discriminate|].
  injection H as ->. cbn. now apply (IH (S i)).
Qed.

Lemma is_some_false {A} (o : option A) : is_some o = false -> o = None.
Proof. destruct o; [discriminate | reflexivity]. Qed.

(** A body of no recognized shape comes back serialized. *)
Lemma gemini_text_unrecognized (data : JSON) :
  recognized data = false -> gemini_text data = Return (json_dumps data).
Proof.
  destruct data as [| | | | | |d]; try reflexivity.
  unfold recognized. rewrite !orb_false_iff. intros [[[Hc Ho] Hout] Htext].
  apply is_some_false in Hc, Ho, Hout, Htext.
  unfold gemini_text. rewrite from_candidates_shape, Hc.
  now rewrite (from_outputs_none d Ho), Hout, Htext.
Qed.

(** [gemini_text] raises only where the text it finds is no string. *)
Lemma gemini_text_raises (data : JSON) (e : exn) :
  gemini_text data = Raise e ->
  exists d, data = JDict d /\ text_not_str d = true.
Proof.
  destruct data as [| | | | | |d]; try discriminate.
  intros H. exists d. split; [reflexivity|].
  unfold gemini_text in H. rewrite from_candidates_shape, from_outputs_shape in H.
  unfold text_not_str.
  destruct (candidates_output d) as [v|].
  - destruct v; (discriminate || reflexivity).
  - destruct (outputs_content d) as [[| | | | |content|]|];
      try discriminate;
      try (destruct (dict_get "output" d); [discriminate|];
           destruct (dict_get "text" d); discriminate).
    destruct (join_parts 0 (map part_text content)) eqn:Hj; [discriminate|].
    now apply (join_parts_raises content 0 e0).
Qed.

Lemma join_parts_ill_typed (content : list JSON) (i : nat) :
  existsb fragment_not_str content = true ->
  exists e, join_parts i (map part_text content) = Raise e.
Proof.
  revert i. induction content as [|p content IH]; intros i H; [discriminate|].
  cbn [map existsb] in *. pose proof (is_str_part_text p) as Hs.
  destruct (part_text p) eqn:Hp; try (eexists; reflexivity).
  destruct (fragment_not_str p); [discriminate|].
  destruct (IH (S i) H) as (e & He). exists e. cbn. now rewrite He.
Qed.

(** And it does raise there. *)
Lemma gemini_text_ill_typed (d : list (string * JSON)) :
  text_not_str d = true -> exists e, gemini_text (JDict d) = Raise e.
Proof.
  unfold text_not_str, gemini_text.
  rewrite from_candidates_shape, from_outputs_shape.
  destruct (candidates_output d) as [v|].
  - destruct v; (discriminate || (intros _; eexists; reflexivity)).
  - destruct (outputs_content d) as [[| | | | |content|]|]; try discriminate.
    intros H. destruct (join_parts_ill_typed content 0 H) as (e & He).
    exists e. now rewrite He.
Qed.

Lemma huggingface_text_shape (out : JSON) :
  huggingface_text out =
    match first_generated_text out with
    | Some v => v
    | None => JString (json_dumps out)
    end.
Proof.
  destruct out as [| | | | |[|[| | | | | |first] rest]|]; reflexivity.
Qed.

(** The [candidates] branch misses the [str(...)] of the other branches:
    an [output] that is no string has no [strip]. *)
Example gemini_text_output_not_str :
  gemini_text (JDict [("candidates", JList [JDict [("output", JInt 5)]])])
  = Raise (Exn AttributeError "'int' object has no attribute 'strip'").
Proof. reflexivity. Qed.

(** So does the [outputs] branch for a fragment whose [text] is no
    string. *)
Example gemini_text_fragment_not_str :
  gemini_text
    (JDict [("outputs",
             JList [JDict [("content",
                            JList [JString "Par"; JDict [("text", JNull)]])]])])
  = Raise (Exn TypeError "sequence item 1: expected str instance, NoneType found").
Proof. reflexivity. Qed.

(** Where the other branches apply [str], anything is accepted. *)
Example gemini_text_top_level_output :
  gemini_text (JDict [("output", JInt 5)]) = Return "5".
Proof. reflexivity. Qed.

(** ** Provider adapters *)

(** C8. Each adapter fails at once with a configuration error when its
    credential is absent, before it issues any request: the events of the
    failing call are the readings of the credential and nothing else.
    [send_to_gemini] reads [GOOGLE_API_KEY] and then [GEMINI_API_KEY]; the
    first that is not empty is the credential of the request, and the call
    fails if both are empty or unset.  [send_to_huggingface] reads
    [HUGGINGFACE_API_TOKEN] and fails if it is empty or unset. *)
Theorem adapters_require_credentials (p : string) (w : World) (tr : list event) :
  (truthy (environ w "GOOGLE_API_KEY") = false ->
   truthy (environ w "GEMINI_API_KEY") = false ->
   send_to_gemini p w tr =
     (Raise (Exn RuntimeError "GOOGLE_API_KEY (or GEMINI_API_KEY) not set"),
      (tr ++ [Getenv "GOOGLE_API_KEY"; Getenv "GEMINI_API_KEY"])%list))
  /\ (forall key,
        environ w "GOOGLE_API_KEY" = Some key -> key <> EmptyString ->
        exists r,
          send_to_gemini p w tr =
            (r, (tr ++ [Getenv "GOOGLE_API_KEY"; Getenv "GEMINI_MODEL";
                        Getenv "GEMINI_BASE_URL";
                        Post (gemini_request w key p)])%list))
  /\ (forall key,
        truthy (environ w "GOOGLE_API_KEY") = false ->
        environ w "GEMINI_API_KEY" = Some key -> key <> EmptyString ->
        exists r,
          send_to_gemini p w tr =
            (r, (tr ++ [Getenv "GOOGLE_API_KEY"; Getenv "GEMINI_API_KEY";
                        Getenv "GEMINI_MODEL"; Getenv "GEMINI_BASE_URL";
                        Post (gemini_request w key p)])%list))
  /\ (forall key,
        exists base,
          req_url (gemini_request w key p) = base ++ ":generateText?key=" ++ key)
  /\ (truthy (environ w "HUGGINGFACE_API_TOKEN") = false ->
      send_to_huggingface p w tr =
        (Raise (Exn RuntimeError "HUGGINGFACE_API_TOKEN not set"),
         (tr ++ [Getenv "HUGGINGFACE_API_TOKEN"])%list)).
Proof.
  repeat split.
  - apply send_to_gemini_no_key.
  - intros key E Hne. destruct key as [|c s]; [congruence|].
    rewrite (send_to_gemini_google p w tr c s E). unfold gemini_exchange.
    rewrite <- app_assoc. eexists. reflexivity.
  - intros key HG E Hne. destruct key as [|c s]; [congruence|].
    rewrite (send_to_gemini_gemini p w tr c s HG E). unfold gemini_exchange.
    rewrite <- app_assoc. eexists. reflexivity.
  - intros key. unfold gemini_request. cbn [req_url].
    eexists (_ ++ _). now rewrite append_assoc.
  - apply send_to_huggingface_no_token.
Qed.

(** C8 where nothing is configured, where only [GEMINI_API_KEY] is, and
    where [GOOGLE_API_KEY] is. *)
Lemma adapters_require_credentials_witness :
  send_to_gemini "Question: x" world_unconfigured [] =
    (Raise (Exn RuntimeError "GOOGLE_API_KEY (or GEMINI_API_KEY) not set"),
     [Getenv "GOOGLE_API_KEY"; Getenv "GEMINI_API_KEY"])
  /\ send_to_huggingface "Question: x" world_unconfigured [] =
       (Raise (Exn RuntimeError "HUGGINGFACE_API_TOKEN not set"),
        [Getenv "HUGGINGFACE_API_TOKEN"])
  /\ (exists r,
        send_to_gemini "Question: x" world_forbidden [] =
          (r, [Getenv "GOOGLE_API_KEY"; Getenv "GEMINI_API_KEY";
               Getenv "GEMINI_MODEL"; Getenv "GEMINI_BASE_URL";
               Post (gemini_request world_forbidden "key-a" "Question: x")]))
  /\ (exists r,
        send_to_gemini "Question: x" world_paris [] =
          (r, [Getenv "GOOGLE_API_KEY"; Getenv "GEMINI_MODEL";
               Getenv "GEMINI_BASE_URL";
               Post (gemini_request world_paris "key-a" "Question: x")])).
Proof.
  destruct (adapters_require_credentials "Question: x" world_unconfigured [])
    as (Hnone & _ & _ & _ & Htoken).
  destruct (adapters_require_credentials "Question: x" world_forbidden [])
    as (_ & _ & Hsecond & _).
  destruct (adapters_require_credentials "Question: x" world_paris [])
    as (_ & Hfirst & _).
  split; [exact (Hnone eq_refl eq_refl)|].
  split; [exact (Htoken eq_refl)|].
  split.
  - apply (Hsecond "key-a"); [reflexivity | reflexivity | discriminate].
  - apply (Hfirst "key-a"); [reflexivity | discriminate].
Defined.

(** C9, as stated, fails.  With both credentials configured, either adapter
    fails when its request times out, and fails with the decoding error of
    [resp.json()] when the response has status 200 and a page of HTML as
    its body. *)
Lemma adapters_raise_without_status_error :
  truthy (environ world_timeout "GOOGLE_API_KEY") = true
  /\ truthy (environ world_timeout "HUGGINGFACE_API_TOKEN") = true
  /\ fst (send_to_gemini "Question: x" world_timeout [])
     = Raise (Exn RequestException "Read timed out. (read timeout=60)")
  /\ fst (send_to_huggingface "Question: x" world_timeout [])
     = Raise (Exn RequestException "Read timed out. (read timeout=60)")
  /\ truthy (environ world_html "GOOGLE_API_KEY") = true
  /\ truthy (environ world_html "HUGGINGFACE_API_TOKEN") = true
  /\ (forall h req, exists resp,
        network world_html h req = Responded resp /\ ok resp = true)
  /\ fst (send_to_gemini "Question: x" world_html [])
     = Raise (Exn JSONDecodeError "Expecting value: line 1 column 1 (char 0)")
  /\ fst (send_to_huggingface "Question: x" world_html [])
     = Raise (Exn JSONDecodeError "Expecting value: line 1 column 1 (char 0)").
Proof.
  repeat (split; [reflexivity|]). split.
  - intros h req. eexists. split; reflexivity.
  - split; reflexivity.
Qed.

(** C9, amended.  On a successful HTTP response whose body is JSON,
    [send_to_gemini] returns the body serialized as text when it has none
    of the recognized shapes, and [send_to_huggingface] never raises: it
    returns the [generated_text] of the first element when the body is a
    list whose first element is an object with that field, and the body
    serialized as text otherwise.  An adapter fails only for a missing
    credential, a request that raises, a status that is an error, or a
    successful response whose body is not JSON; for [send_to_gemini],
    bodies in which the [output] of the first candidate, or the [text] of
    a fragment of the first output's [content], is no string are left
    aside. *)
Theorem adapters_degrade_to_raw_json :
  (forall p w tr resp data,
     truthy (environ w "GOOGLE_API_KEY") = true
     \/ truthy (environ w "GEMINI_API_KEY") = true ->
     (forall h key, network w h (gemini_request w key p) = Responded resp) ->
     ok resp = true -> json resp = Decoded data -> recognized data = false ->
     fst (send_to_gemini p w tr) = Return (json_dumps data))
  /\ (forall p w tr resp out,
        truthy (environ w "HUGGINGFACE_API_TOKEN") = true ->
        (forall h token,
           network w h (huggingface_request token p) = Responded resp) ->
        ok resp = true -> json resp = Decoded out ->
        fst (send_to_huggingface p w tr)
        = Return match first_generated_text out with
                 | Some v => v
                 | None => JString (json_dumps out)
                 end)
  /\ (forall p w tr e tr',
        send_to_huggingface p w tr = (Raise e, tr') ->
        truthy (environ w "HUGGINGFACE_API_TOKEN") = false
        \/ exists h req,
             tr' = (h ++ [Post req])%list /\ exchange_failed (network w h req))
  /\ (forall p w tr e tr',
        send_to_gemini p w tr = (Raise e, tr') ->
        (truthy (environ w "GOOGLE_API_KEY") = false
         /\ truthy (environ w "GEMINI_API_KEY") = false)
        \/ exists h req,
             tr' = (h ++ [Post req])%list
             /\ (exchange_failed (network w h req)
                 \/ ill_typed (network w h req))).
Proof.
  assert (HG : forall w key p h e tr',
    gemini_exchange w key p h = (Raise e, tr') ->
    exists h req,
      tr' = (h ++ [Post req])%list
      /\ (exchange_failed (network w h req) \/ ill_typed (network w h req))).
  { intros w key p h e tr' H. unfold gemini_exchange in H.
    injection H as Hout <-. exists h, (gemini_request w key p).
    split; [reflexivity|]. unfold gemini_outcome in Hout.
    destruct (network w h (gemini_request w key p)) as [resp|msg]; cbn.
    - destruct (ok resp) eqn:Hok; [|now left; left].
      destruct (json resp) as [data|msg] eqn:Hj.
      + right. split; [reflexivity|].
        destruct (gemini_text_raises data e Hout) as (d & -> & Hd). now exists d.
      + left. right. now exists msg.
    - now left. }
  split; [|split; [|split]].
  - intros p w tr resp data Hkey Hnet Hok Hj Hrec.
    assert (Hout : forall key h,
      fst (gemini_exchange w key p h) = Return (json_dumps data)).
    { intros key h. unfold gemini_exchange, gemini_outcome. cbn [fst].
      rewrite Hnet, Hok, Hj. now apply gemini_text_unrecognized. }
    destruct (truthy (environ w "GOOGLE_API_KEY")) eqn:HGo.
    + destruct (truthy_true _ HGo) as (c & s & E).
      now rewrite (send_to_gemini_google _ w tr c s E).
    + destruct Hkey as [Hkey | Hkey]; [discriminate|].
      destruct (truthy_true _ Hkey) as (c & s & E).
      now rewrite (send_to_gemini_gemini _ w tr c s HGo E).
  - intros p w tr resp out Htok Hnet Hok Hj.
    destruct (truthy_true _ Htok) as (c & s & E).
    rewrite (send_to_huggingface_token _ w tr c s E).
    unfold huggingface_exchange, huggingface_outcome. cbn [fst].
    now rewrite Hnet, Hok, Hj, huggingface_text_shape.
  - intros p w tr e tr' H.
    destruct (truthy (environ w "HUGGINGFACE_API_TOKEN")) eqn:Htok; [|now left].
    right. destruct (truthy_true _ Htok) as (c & s & E).
    rewrite (send_to_huggingface_token _ w tr c s E) in H.
    unfold huggingface_exchange in H. injection H as Hout <-.
    eexists _, _. split; [reflexivity|]. unfold huggingface_outcome in Hout.
    destruct (network w _ _) as [resp|msg]; cbn; [|exact I].
    destruct (ok resp); [|now left].
    destruct (json resp) as [out|msg]; [discriminate|]. right. now exists msg.
  - intros p w tr e tr' H.
    destruct (truthy (environ w "GOOGLE_API_KEY")) eqn:HGo.
    + right. destruct (truthy_true _ HGo) as (c & s & E).
      rewrite (send_to_gemini_google _ w tr c s E) in H. exact (HG _ _ _ _ _ _ H).
    + destruct (truthy (environ w "GEMINI_API_KEY")) eqn:HK; [|now left].
      right. destruct (truthy_true _ HK) as (c & s & E).
      rewrite (send_to_gemini_gemini _ w tr c s HGo E) in H.
      exact (HG _ _ _ _ _ _ H).
Qed.

(** C9 amended, on a body of unknown shape and on a page of HTML. *)
Lemma adapters_degrade_to_raw_json_witness :
  fst (send_to_gemini "Question: x" world_unknown [])
  = Return (json_dumps unknown_body)
  /\ fst (send_to_huggingface "Question: x" world_unknown [])
     = Return (JString (json_dumps unknown_body))
  /\ (exists h req,
        snd (send_to_huggingface "Question: x" world_html []) = (h ++ [Post req])%list
        /\ exchange_failed (network world_html h req))
  /\ (exists h req,
        snd (send_to_gemini "Question: x" world_html []) = (h ++ [Post req])%list
        /\ (exchange_failed (network world_html h req)
            \/ ill_typed (network world_html h req))).
Proof.
  destruct adapters_degrade_to_raw_json as (Hgemini & Hhf & Hhf_fails & Hgemini_fails).
  split; [|split; [|split]].
  - apply (Hgemini "Question: x" world_unknown []
             {| status_code := 200; text := "(body)"; json := Decoded unknown_body |});
      [left; reflexivity | intros h key; reflexivity | reflexivity
      | reflexivity | reflexivity].
  - exact (Hhf "Question: x" world_unknown []
             {| status_code := 200; text := "(body)"; json := Decoded unknown_body |}
             unknown_body eq_refl (fun h token => eq_refl) eq_refl eq_refl).
  - destruct (Hhf_fails "Question: x" world_html []
                (Exn JSONDecodeError "Expecting value: line 1 column 1 (char 0)")
                (snd (send_to_huggingface "Question: x" world_html [])) eq_refl)
      as [Hno | H]; [discriminate Hno | exact H].
  - destruct (Hgemini_fails "Question: x" world_html []
                (Exn JSONDecodeError "Expecting value: line 1 column 1 (char 0)")
                (snd (send_to_gemini "Question: x" world_html [])) eq_refl)
      as [[Hno _] | H]; [discriminate Hno | exact H].
Defined.


(** ** Fallback orchestrator *)

Section Orchestrator.

(** A question, a world and the events before the call. *)
Variables (q : string) (w : World) (tr : list event).

(** The three ways through [ask_llm]. *)
Lemma ask_llm_first (tr1 : list event) (a : string) :
  send_to_gemini (construct_prompt (preprocess q)) w tr = (Return a, tr1) ->
  ask_llm q w tr =
    (Return {| question := q; processed := preprocess q;
               prompt := construct_prompt (preprocess q);
               answer := JString a; source := "gemini"; errors := [] |}, tr1).
Proof.
  intros HA. unfold ask_llm, bind, try_except, ret. now rewrite HA.
Qed.

Lemma ask_llm_second (tr1 tr2 : list event) (e : exn) (a : JSON) :
  send_to_gemini (construct_prompt (preprocess q)) w tr = (Raise e, tr1) ->
  send_to_huggingface (construct_prompt (preprocess q)) w tr1 = (Return a, tr2) ->
  ask_llm q w tr =
    (Return {| question := q; processed := preprocess q;
               prompt := construct_prompt (preprocess q);
               answer := a; source := "huggingface";
               errors := [exn_str e] |}, tr2).
Proof.
  intros HA HB. unfold ask_llm, bind, try_except, ret. now rewrite HA, HB.
Qed.

Lemma ask_llm_neither (tr1 tr2 : list event) (e e2 : exn) :
  send_to_gemini (construct_prompt (preprocess q)) w tr = (Raise e, tr1) ->
  send_to_huggingface (construct_prompt (preprocess q)) w tr1 = (Raise e2, tr2) ->
  ask_llm q w tr =
    (Return {| question := q; processed := preprocess q;
               prompt := construct_prompt (preprocess q);
               answer := JString (simulated_prefix ++ "Processed question: "
                                  ++ preprocess q);
               source := "simulated";
               errors := [exn_str e; exn_str e2] |}, tr2).
Proof.
  intros HA HB. unfold ask_llm, bind, try_except, ret. now rewrite HA, HB.
Qed.

(** Every run of [ask_llm] is one of the three. *)
Lemma ask_llm_cases :
  (exists a tr1,
     send_to_gemini (construct_prompt (preprocess q)) w tr = (Return a, tr1))
  \/ (exists e tr1 a tr2,
        send_to_gemini (construct_prompt (preprocess q)) w tr = (Raise e, tr1)
        /\ send_to_huggingface (construct_prompt (preprocess q)) w tr1
           = (Return a, tr2))
  \/ (exists e tr1 e2 tr2,
        send_to_gemini (construct_prompt (preprocess q)) w tr = (Raise e, tr1)
        /\ send_to_huggingface (construct_prompt (preprocess q)) w tr1
           = (Raise e2, tr2)).
Proof.
  destruct (send_to_gemini (construct_prompt (preprocess q)) w tr)
    as [[a|e] tr1] eqn:HA.
  - left. now exists a, tr1.
  - right.
    destruct (send_to_huggingface (construct_prompt (preprocess q)) w tr1)
      as [[a|e2] tr2] eqn:HB.
    + left. now exists e, tr1, a, tr2.
    + right. now exists e, tr1, e2, tr2.
Qed.

Ltac by_ask_llm_cases :=
  destruct ask_llm_cases
    as [(a & tr1 & HA)
       | [(e & tr1 & a & tr2 & HA & HB) | (e & tr1 & e2 & tr2 & HA & HB)]];
  [ eexists _, _; split; [apply (ask_llm_first _ _ HA)|]
  | eexists _, _; split; [apply (ask_llm_second _ _ _ _ HA HB)|]
  | eexists _, _; split; [apply (ask_llm_neither _ _ _ _ HA HB)|] ];
  cbn [source errors].

(** C1. For every question and every behaviour of the two adapters,
    [ask_llm] returns an answer record and never raises: a failure of
    Provider A, and then one of Provider B, is caught and its message is
    recorded in the record's error list. *)
Theorem ask_llm_never_raises :
  exists r tr',
    ask_llm q w tr = (Return r, tr')
    /\ (forall e tr1,
          send_to_gemini (construct_prompt (preprocess q)) w tr = (Raise e, tr1) ->
          In (exn_str e) (errors r)
          /\ (forall e2 tr2,
                send_to_huggingface (construct_prompt (preprocess q)) w tr1
                = (Raise e2, tr2) ->
                In (exn_str e2) (errors r))).
Proof.
  by_ask_llm_cases.
  - intros e' tr1' HA'. congruence.
  - intros e' tr1' HA'. rewrite HA in HA'. injection HA' as <- <-.
    split; [now left|]. intros e2 tr2' HB'. congruence.
  - intros e' tr1' HA'. rewrite HA in HA'. injection HA' as <- <-.
    split; [now left|]. intros e2' tr2' HB'. rewrite HB in HB'.
    injection HB' as <- <-. right. now left.
Qed.

(** C2. If Provider A fails and Provider B succeeds with the answer [a],
    the record has that answer, the source ["huggingface"] and the message
    of Provider A's failure in its error list.  Provider B is invoked only
    after Provider A has failed: its events follow all of Provider A's; and
    it is not invoked when Provider A succeeds. *)
Theorem ask_llm_fallback_order :
  (forall e tr1 a tr2,
     send_to_gemini (construct_prompt (preprocess q)) w tr = (Raise e, tr1) ->
     send_to_huggingface (construct_prompt (preprocess q)) w tr1 = (Return a, tr2) ->
     exists r evsA evsB,
       ask_llm q w tr = (Return r, (tr ++ evsA ++ evsB)%list)
       /\ answer r = a
       /\ source r = "huggingface"
       /\ In (exn_str e) (errors r)
       /\ tr1 = (tr ++ evsA)%list
       /\ ~ huggingface_invoked evsA
       /\ huggingface_invoked evsB)
  /\ (forall a tr1,
        send_to_gemini (construct_prompt (preprocess q)) w tr = (Return a, tr1) ->
        exists r evsA,
          ask_llm q w tr = (Return r, (tr ++ evsA)%list)
          /\ source r = "gemini"
          /\ ~ huggingface_invoked evsA).
Proof.
  split.
  - intros e tr1 a tr2 HA HB.
    destruct (send_to_gemini_events (construct_prompt (preprocess q)) w tr)
      as (evsA & EA & HnA).
    destruct (send_to_huggingface_events (construct_prompt (preprocess q)) w tr1)
      as (evsB & EB).
    rewrite HA in EA. rewrite HB in EB. cbn [snd] in EA, EB. subst tr1.
    eexists _, evsA, (Getenv "HUGGINGFACE_API_TOKEN" :: evsB).
    split.
    + rewrite (ask_llm_second _ _ _ _ HA HB), EB. now rewrite app_assoc.
    + cbn. repeat split; auto.
  - intros a tr1 HA.
    destruct (send_to_gemini_events (construct_prompt (preprocess q)) w tr)
      as (evsA & EA & HnA).
    rewrite HA in EA. cbn [snd] in EA. subst tr1.
    eexists _, evsA. split; [apply (ask_llm_first _ _ HA)|]. now split.
Qed.

(** C10. For every question and every outcome of the providers, the record
    [ask_llm] returns has one of the three sources: with ["gemini"] the
    error list is empty; with ["huggingface"] it holds exactly the message
    of Provider A's failure; with ["simulated"] it holds exactly the
    message of Provider A's failure and then that of Provider B's. *)
Theorem ask_llm_source_errors :
  exists r tr',
    ask_llm q w tr = (Return r, tr')
    /\ (source r = "gemini" \/ source r = "huggingface" \/ source r = "simulated")
    /\ (source r = "gemini" -> errors r = [])
    /\ (source r = "huggingface" ->
        exists e tr1,
          send_to_gemini (construct_prompt (preprocess q)) w tr = (Raise e, tr1)
          /\ errors r = [exn_str e])
    /\ (source r = "simulated" ->
        exists e tr1 e2 tr2,
          send_to_gemini (construct_prompt (preprocess q)) w tr = (Raise e, tr1)
          /\ send_to_huggingface (construct_prompt (preprocess q)) w tr1
             = (Raise e2, tr2)
          /\ errors r = [exn_str e; exn_str e2]).
Proof.
  by_ask_llm_cases.
  - repeat split; auto; discriminate.
  - repeat split; auto; try discriminate. intros _. now exists e, tr1.
  - repeat split; auto; try discriminate. intros _. now exists e, tr1, e2, tr2.
Qed.

End Orchestrator.

(** C1 where nothing is configured: both failures are in the record. *)
Lemma ask_llm_never_raises_witness :
  exists r tr',
    ask_llm "Why?" world_unconfigured [] = (Return r, tr')
    /\ In "GOOGLE_API_KEY (or GEMINI_API_KEY) not set" (errors r)
    /\ In "HUGGINGFACE_API_TOKEN not set" (errors r).
Proof.
  destruct (ask_llm_never_raises "Why?" world_unconfigured [])
    as (r & tr' & Hrun & Herr).
  exists r, tr'. split; [exact Hrun|].
  destruct (Herr (Exn RuntimeError "GOOGLE_API_KEY (or GEMINI_API_KEY) not set")
              [Getenv "GOOGLE_API_KEY"; Getenv "GEMINI_API_KEY"] eq_refl)
    as [HA HB].
  split; [exact HA|].
  exact (HB (Exn RuntimeError "HUGGINGFACE_API_TOKEN not set")
            [Getenv "GOOGLE_API_KEY"; Getenv "GEMINI_API_KEY";
             Getenv "HUGGINGFACE_API_TOKEN"] eq_refl).
Defined.

(** C2 where Provider A answers 403 and Provider B answers "Paris", and
    where Provider A answers. *)
Lemma ask_llm_fallback_order_witness :
  (exists r evsA evsB,
     ask_llm "Capital of France?" world_forbidden [] = (Return r, (evsA ++ evsB)%list)
     /\ answer r = JString "Paris"
     /\ source r = "huggingface"
     /\ In "Gemini API error: 403 Forbidden" (errors r)
     /\ ~ huggingface_invoked evsA
     /\ huggingface_invoked evsB)
  /\ (exists r evsA,
        ask_llm "Capital of France?" world_paris [] = (Return r, evsA)
        /\ source r = "gemini"
        /\ ~ huggingface_invoked evsA).
Proof.
  split.
  - destruct (proj1 (ask_llm_fallback_order "Capital of France?" world_forbidden [])
                (Exn RuntimeError "Gemini API error: 403 Forbidden")
                (snd (send_to_gemini
                        (construct_prompt (preprocess "Capital of France?"))
                        world_forbidden []))
                (JString "Paris")
                (snd (ask_llm "Capital of France?" world_forbidden []))
                eq_refl eq_refl)
      as (r & evsA & evsB & Hrun & Ha & Hs & He & _ & HnA & HB).
    exists r, evsA, evsB. repeat split; assumption.
  - exact (proj2 (ask_llm_fallback_order "Capital of France?" world_paris [])
             "Paris"
             (snd (ask_llm "Capital of France?" world_paris []))
             eq_refl).
Defined.

(** C10 where Provider A answers 403 and Provider B succeeds: one error;
    and where nothing is configured: two errors. *)
Lemma ask_llm_source_errors_witness :
  (exists r tr',
     ask_llm "Capital of France?" world_forbidden [] = (Return r, tr')
     /\ source r = "huggingface"
     /\ List.length (errors r) = 1)
  /\ (exists r tr',
        ask_llm "Capital of France?" world_unconfigured [] = (Return r, tr')
        /\ source r = "simulated"
        /\ List.length (errors r) = 2).
Proof.
  split.
  - destruct (ask_llm_source_errors "Capital of France?" world_forbidden [])
      as (r & tr' & Hrun & _ & _ & Hhf & _).
    exists r, tr'. split; [exact Hrun|].
    assert (Hs : source r = "huggingface").
    { vm_compute in Hrun. injection Hrun as <- _. reflexivity. }
    split; [exact Hs|].
    destruct (Hhf Hs) as (e & tr1 & _ & ->). reflexivity.
  - destruct (ask_llm_source_errors "Capital of France?" world_unconfigured [])
      as (r & tr' & Hrun & _ & _ & _ & Hsim).
    exists r, tr'. split; [exact Hrun|].
    assert (Hs : source r = "simulated").
    { vm_compute in Hrun. injection Hrun as <- _. reflexivity. }
    split; [exact Hs|].
    destruct (Hsim Hs) as (e & tr1 & e2 & tr2 & _ & _ & ->). reflexivity.
Defined.

(** C3. If both adapters fail, the answer is exactly
    ["[SIMULATED RESPONSE — no API key configured] Processed question: "]
    followed by [preprocess q], and the source is ["simulated"].  In
    particular, with no credentials configured, the question
    ["What is the Capital of France?"] is processed to
    ["what is the capital of france"], the source is ["simulated"] and the
    answer contains the processed question. *)
Theorem ask_llm_simulated :
  (forall q w tr e1 tr1 e2 tr2,
     send_to_gemini (construct_prompt (preprocess q)) w tr = (Raise e1, tr1) ->
     send_to_huggingface (construct_prompt (preprocess q)) w tr1 = (Raise e2, tr2) ->
     exists r,
       ask_llm q w tr = (Return r, tr2)
       /\ answer r
          = JString ("[SIMULATED RESPONSE — no API key configured] Processed question: "
                     ++ preprocess q)
       /\ source r = "simulated")
  /\ (forall w tr,
        no_credentials w ->
        exists r tr',
          ask_llm "What is the Capital of France?" w tr = (Return r, tr')
          /\ processed r = "what is the capital of france"
          /\ source r = "simulated"
          /\ exists s, answer r = JString s
                       /\ contains s "what is the capital of france").
Proof.
  split.
  - intros q w tr e1 tr1 e2 tr2 HA HB.
    eexists. split; [apply (ask_llm_neither _ _ _ _ _ _ _ HA HB)|].
    split; reflexivity.
  - intros w tr (HG & HK & HT).
    eexists _, _. split.
    + eapply ask_llm_neither.
      * apply send_to_gemini_no_key; assumption.
      * apply send_to_huggingface_no_token; assumption.
    + cbn [processed source answer]. repeat split; try reflexivity.
      eexists. split; [reflexivity|].
      exists (simulated_prefix ++ "Processed question: "), EmptyString.
      reflexivity.
Qed.

(** C3 where nothing is configured. *)
Lemma ask_llm_simulated_witness :
  (exists r,
     ask_llm "Why?" world_unconfigured []
     = (Return r, [Getenv "GOOGLE_API_KEY"; Getenv "GEMINI_API_KEY";
                   Getenv "HUGGINGFACE_API_TOKEN"])
     /\ answer r
        = JString ("[SIMULATED RESPONSE — no API key configured] Processed question: "
                   ++ "why")
     /\ source r = "simulated")
  /\ no_credentials world_unconfigured
  /\ (exists r tr',
        ask_llm "What is the Capital of France?" world_unconfigured []
        = (Return r, tr')
        /\ processed r = "what is the capital of france"
        /\ source r = "simulated"
        /\ exists s, answer r = JString s
                     /\ contains s "what is the capital of france").
Proof.
  assert (H : no_credentials world_unconfigured) by (repeat split).
  split; [|split; [exact H|]].
  - exact (proj1 ask_llm_simulated "Why?" world_unconfigured []
             (Exn RuntimeError "GOOGLE_API_KEY (or GEMINI_API_KEY) not set")
             [Getenv "GOOGLE_API_KEY"; Getenv "GEMINI_API_KEY"]
             (Exn RuntimeError "HUGGINGFACE_API_TOKEN not set")
             [Getenv "GOOGLE_API_KEY"; Getenv "GEMINI_API_KEY";
              Getenv "HUGGINGFACE_API_TOKEN"]
             eq_refl eq_refl).
  - exact (proj2 ask_llm_simulated world_unconfigured [] H).
Defined.

(** ** The scenario of a first provider that answers *)

(** C7. When Provider A receives a successful HTTP response whose JSON body
    is [{"candidates":[{"output":"Paris"}]}], [send_to_gemini] returns
    ["Paris"] and [ask_llm] sets the source to ["gemini"]. *)
Theorem send_to_gemini_paris (q : string) (w : World) (tr : list event)
    (resp : Response) :
  truthy (environ w "GOOGLE_API_KEY") = true
  \/ truthy (environ w "GEMINI_API_KEY") = true ->
  (forall h key,
     network w h (gemini_request w key (construct_prompt (preprocess q)))
     = Responded resp) ->
  ok resp = true ->
  json resp = Decoded paris_body ->
  (exists tr1,
     send_to_gemini (construct_prompt (preprocess q)) w tr = (Return "Paris", tr1))
  /\ (exists r tr',
        ask_llm q w tr = (Return r, tr')
        /\ answer r = JString "Paris"
        /\ source r = "gemini").
Proof.
  intros Hkey Hnet Hok Hjson.
  assert (HA : exists tr1,
    send_to_gemini (construct_prompt (preprocess q)) w tr = (Return "Paris", tr1)).
  { assert (Hout : forall key h,
      gemini_exchange w key (construct_prompt (preprocess q)) h
      = (Return "Paris",
         (h ++ [Post (gemini_request w key (construct_prompt (preprocess q)))])%list)).
    { intros key h. unfold gemini_exchange, gemini_outcome.
      now rewrite Hnet, Hok, Hjson. }
    destruct (truthy (environ w "GOOGLE_API_KEY")) eqn:HG.
    - destruct (truthy_true _ HG) as (c & s & E).
      rewrite (send_to_gemini_google _ w tr c s E), Hout. now eexists.
    - destruct Hkey as [Hkey | Hkey]; [discriminate|].
      destruct (truthy_true _ Hkey) as (c & s & E).
      rewrite (send_to_gemini_gemini _ w tr c s HG E), Hout. now eexists. }
  split; [exact HA|].
  destruct HA as (tr1 & HA).
  eexists _, tr1. split; [apply (ask_llm_first _ _ _ _ _ HA)|]. now split.
Qed.

(** C7 in a world where Provider A is configured and answers with that
    body. *)
Lemma send_to_gemini_paris_witness :
  (exists tr1,
     send_to_gemini (construct_prompt (preprocess "Capital of France?"))
       world_paris [] = (Return "Paris", tr1))
  /\ (exists r tr',
        ask_llm "Capital of France?" world_paris [] = (Return r, tr')
        /\ answer r = JString "Paris"
        /\ source r = "gemini").
Proof.
  apply (send_to_gemini_paris "Capital of France?" world_paris []
           {| status_code := 200; text := "(body)"; json := Decoded paris_body |}).
  - left. reflexivity.
  - intros h key. reflexivity.
  - reflexivity.
  - reflexivity.
Defined.

(** * Further properties *)

(** ** Character tables, continued *)

Lemma isword_lower_char (c : ascii) : isword (lower_char c) = isword c.
Proof. by_cases_on c. Qed.

Lemma isword_not_isspace (c : ascii) : isword c = true -> isspace c = false.
Proof. destruct c as [[] [] [] [] [] [] [] []]; (reflexivity || discriminate). Qed.


Lemma length_chars (s : string) : List.length (chars s) = String.length s.
Proof. induction s as [|c s IH]; simpl; [reflexivity | now rewrite IH]. Qed.

(** ** [str.strip] *)

Lemma lstrip_fixed (cs : list ascii) : head_nonspace cs -> lstrip_chars cs = cs.
Proof. destruct cs as [|c cs]; simpl; [reflexivity | now intros ->]. Qed.

Lemma lstrip_head (cs : list ascii) : head_nonspace (lstrip_chars cs).
Proof.
  induction cs as [|c cs IH]; simpl; [exact I|].
  destruct (isspace c) eqn:Hc; [exact IH | exact Hc].
Qed.

Lemma lstrip_split (cs : list ascii) :
  exists ws, allspace ws /\ cs = (ws ++ lstrip_chars cs)%list.
Proof.
  induction cs as [|c cs (ws & Hws & E)]; simpl.
  - exists []. split; [constructor | reflexivity].
  - destruct (isspace c) eqn:Hc.
    + exists (c :: ws). split; [now constructor | simpl; now rewrite <- E].
    + exists []. split; [constructor | reflexivity].
Qed.

Lemma head_nonspace_app (l m : list ascii) :
  l <> [] -> head_nonspace l -> head_nonspace (l ++ m).
Proof. destruct l; [congruence | auto]. Qed.

(** Stripping the left end keeps the right end as it is. *)
Lemma lstrip_rev_head (cs : list ascii) :
  head_nonspace (rev cs) -> head_nonspace (rev (lstrip_chars cs)).
Proof.
  induction cs as [|c cs IH]; simpl; [auto|]. intros H.
  destruct (isspace c) eqn:Hc; [|exact H].
  apply IH. destruct (rev cs) as [|d l] eqn:E; [exact I|]. exact H.
Qed.

(** A stripped text starts and ends with a character that is no
    whitespace. *)
Lemma strip_trimmed (cs : list ascii) :
  let out := rev (lstrip_chars (rev (lstrip_chars cs))) in
  head_nonspace out /\ head_nonspace (rev out).
Proof.
  intros out. subst out. rewrite rev_involutive. split; [|apply lstrip_head].
  apply lstrip_rev_head. rewrite rev_involutive. apply lstrip_head.
Qed.

Lemma strip_fixed (cs : list ascii) :
  head_nonspace cs -> head_nonspace (rev cs) ->
  rev (lstrip_chars (rev (lstrip_chars cs))) = cs.
Proof.
  intros H1 H2. rewrite (lstrip_fixed cs H1), (lstrip_fixed (rev cs) H2).
  apply rev_involutive.
Qed.

Lemma str_strip_idempotent (s : string) : str_strip (str_strip s) = str_strip s.
Proof.
  unfold str_strip. rewrite chars_of_chars. f_equal.
  destruct (strip_trimmed (chars s)) as [H1 H2]. now apply strip_fixed.
Qed.

(** ** Text normalizer, continued *)

Lemma split_chars_good (cs : list ascii) : good_tokens (split_chars cs).
Proof.
  eapply Forall_impl; [|apply Tokens_shape, split_chars_tokens].
  intros tok (Hne & Hns & _). now split.
Qed.

Lemma nospace_head (tok : list ascii) : nospace tok -> head_nonspace tok.
Proof. destruct 1; [exact I | assumption]. Qed.

Lemma nospace_rev (tok : list ascii) : nospace tok -> nospace (rev tok).
Proof. unfold nospace. apply Forall_rev. Qed.

Lemma join_chars_cons2 (tok tok' : list ascii) (rest : list (list ascii)) :
  join_chars (tok :: tok' :: rest)
  = (tok ++ " "%char :: join_chars (tok' :: rest))%list.
Proof. reflexivity. Qed.

Lemma join_chars_nonempty (tok : list ascii) (rest : list (list ascii)) :
  tok <> [] -> join_chars (tok :: rest) <> [].
Proof.
  intros Hne. destruct rest as [|tok' rest]; [exact Hne|].
  rewrite join_chars_cons2. destruct tok; [congruence | discriminate].
Qed.

Lemma join_chars_head (toks : list (list ascii)) :
  good_tokens toks -> head_nonspace (join_chars toks).
Proof.
  destruct 1 as [|tok rest [Hne Hns] _]; [exact I|].
  destruct rest as [|tok' rest]; [now apply nospace_head|].
  rewrite join_chars_cons2. apply head_nonspace_app; [assumption|].
  now apply nospace_head.
Qed.

Lemma join_chars_last (toks : list (list ascii)) :
  good_tokens toks -> head_nonspace (rev (join_chars toks)).
Proof.
  induction 1 as [|tok rest [Hne Hns] Hrest IH]; [exact I|].
  destruct rest as [|tok' rest]; [now apply nospace_head, nospace_rev|].
  rewrite join_chars_cons2, rev_app_distr. cbn [rev]. rewrite <- app_assoc.
  apply head_nonspace_app; [|exact IH].
  intros E. apply (f_equal (@rev ascii)) in E. rewrite rev_involutive in E.
  inversion Hrest as [|? ? [Hne' _] _]; subst.
  now apply (join_chars_nonempty tok' rest).
Qed.

Lemma join_chars_no_double_space (toks : list (list ascii)) :
  good_tokens toks ->
  forall before after,
    join_chars toks <> (before ++ " "%char :: " "%char :: after)%list.
Proof.
  induction 1 as [|tok rest [Hne Hns] Hrest IH]; intros before after E.
  - now destruct before.
  - assert (Hin : forall b a, tok <> (b ++ " "%char :: a)%list).
    { intros b a ->. unfold nospace in Hns. rewrite Forall_forall in Hns.
      specialize (Hns " "%char). rewrite in_app_iff in Hns.
      discriminate Hns. right. now left. }
    destruct rest as [|tok' rest]; [now apply (Hin before (" "%char :: after))|].
    rewrite join_chars_cons2 in E.
    pose proof (join_chars_head _ Hrest) as Hhead.
    remember (join_chars (tok' :: rest)) as joined eqn:EJ.
    apply app_eq_app in E. destruct E as (l & [[E1 E2] | [E1 E2]]).
    + destruct l as [|c l]; cbn [app] in E2.
      * injection E2 as E2. rewrite <- E2 in Hhead. discriminate Hhead.
      * injection E2 as <- _. now apply (Hin before l).
    + destruct l as [|c l]; cbn [app] in E2.
      * injection E2 as E2. rewrite E2 in Hhead. discriminate Hhead.
      * injection E2 as _ E2. now apply (IH l after).
Qed.

Lemma preprocess_chars_normal (text : string) (c : ascii) :
  In c (chars (preprocess text)) ->
  c = " "%char \/ (isword c = true /\ isspace c = false /\ lower_char c = c).
Proof.
  rewrite preprocess_chars, chars_of_chars.
  set (cs := filter word_or_space (map lower_char (chars text))). intros Hc.
  destruct (In_join_chars c _ Hc) as [-> | (tok & Htok & Hin)]; [now left|].
  right.
  pose proof (Tokens_shape _ _ (split_chars_tokens cs)) as Hshape.
  rewrite Forall_forall in Hshape. destruct (Hshape tok Htok) as (_ & Hns & Hincl).
  destruct (normalized_chars text c (Hincl c Hin)) as [Hlow Hkeep].
  unfold nospace in Hns. rewrite Forall_forall in Hns.
  pose proof (Hns c Hin) as Hsp. unfold word_or_space in Hkeep.
  rewrite Hsp, orb_false_r in Hkeep. auto.
Qed.

(** X1. The processed question is in normal form: it has no whitespace at
    either end (stripping it changes nothing), it never contains two spaces
    in a row, and each of its characters is a single space or a word
    character that lower-casing leaves as it is. *)
Theorem preprocess_normal_form (text : string) :
  str_strip (preprocess text) = preprocess text
  /\ ~ contains (preprocess text) "  "
  /\ (forall c, In c (chars (preprocess text)) ->
        c = " "%char
        \/ (isword c = true /\ isspace c = false /\ lower_char c = c)).
Proof.
  split; [|split; [|apply preprocess_chars_normal]]; rewrite preprocess_chars;
    pose proof (split_chars_good
                  (filter word_or_space (map lower_char (chars text)))) as Hgood.
  - unfold str_strip. rewrite chars_of_chars. f_equal.
    apply strip_fixed; [now apply join_chars_head | now apply join_chars_last].
  - intros (before & after & E). apply (f_equal chars) in E.
    rewrite chars_of_chars, !chars_append in E.
    now apply (join_chars_no_double_space _ Hgood (chars before) (chars after)).
Qed.

Lemma clean_chars_app (l m : list ascii) :
  clean_chars (l ++ m) = (clean_chars l ++ clean_chars m)%list.
Proof. unfold clean_chars. now rewrite map_app, filter_app. Qed.

Lemma emit_clean (tok : list ascii) :
  emit (clean_chars tok)
  = filter (fun t => negb (is_nil t)) (map clean_chars (emit tok)).
Proof.
  destruct tok as [|a tok]; [reflexivity|]. cbn [emit map filter].
  destruct (clean_chars (a :: tok)); reflexivity.
Qed.

(** Cleaning commutes with splitting: the tokens of the cleaned text are
    the cleaned tokens of the text, those that vanish left out. *)
Lemma split_from_clean (cs tok : list ascii) :
  split_from (clean_chars tok) (clean_chars cs)
  = filter (fun t => negb (is_nil t)) (map clean_chars (split_from tok cs)).
Proof.
  revert tok. induction cs as [|c cs IH]; intros tok.
  - apply emit_clean.
  - cbn [split_from]. destruct (isspace c) eqn:Hc.
    + assert (E : clean_chars (c :: cs) = lower_char c :: clean_chars cs).
      { unfold clean_chars. cbn [map filter]. unfold word_or_space at 1.
        now rewrite isspace_lower_char, Hc, orb_true_r. }
      rewrite E, split_from_space by now rewrite isspace_lower_char.
      now rewrite map_app, filter_app, <- (IH []), emit_clean.
    + rewrite <- IH, clean_chars_app.
      change (c :: cs) with ([c] ++ cs)%list. rewrite clean_chars_app.
      assert (E : clean_chars [c]
                  = if word_or_space (lower_char c) then [lower_char c] else [])
        by reflexivity.
      rewrite E. destruct (word_or_space (lower_char c)).
      * cbn [app split_from]. now rewrite isspace_lower_char, Hc.
      * now rewrite app_nil_r.
Qed.

Lemma clean_word_chars (l : list ascii) :
  clean_word (of_chars l) = of_chars (clean_chars l).
Proof. unfold clean_word, re_sub_punct, str_lower. now rewrite !chars_of_chars. Qed.

Lemma nonempty_of_chars (l : list ascii) : nonempty (of_chars l) = negb (is_nil l).
Proof. destruct l; reflexivity. Qed.

Lemma filter_map_of_chars (toks : list (list ascii)) :
  filter nonempty (map of_chars toks)
  = map of_chars (filter (fun t => negb (is_nil t)) toks).
Proof.
  induction toks as [|t toks IH]; [reflexivity|]. cbn [map filter].
  rewrite nonempty_of_chars, IH. now destruct (negb (is_nil t)).
Qed.

Lemma preprocess_by_words (text : string) :
  preprocess text
  = str_join " " (filter nonempty (map clean_word (str_split text))).
Proof.
  unfold preprocess. f_equal.
  unfold str_split at 1, re_sub_punct, str_lower. rewrite !chars_of_chars.
  change (filter word_or_space (map lower_char (chars text)))
    with (clean_chars (chars text)).
  unfold split_chars. change (@nil ascii) with (clean_chars []) at 1.
  rewrite split_from_clean. unfold str_split, split_chars.
  rewrite map_map.
  rewrite (map_ext (fun x => clean_word (of_chars x))
                   (fun x => of_chars (clean_chars x)) clean_word_chars).
  rewrite <- (map_map clean_chars of_chars). now rewrite filter_map_of_chars.
Qed.

Lemma preprocess_same_words (text text' : string) :
  str_split text = str_split text' -> preprocess text = preprocess text'.
Proof. intros E. now rewrite !preprocess_by_words, E. Qed.

(** X2. Normalizing a text is normalizing it word by word: [preprocess]
    gives the words of the text, each lower-cased and rid of its
    punctuation, those that vanish left out, joined by single spaces.  So
    two texts with the same words, whatever the whitespace between and
    around them, have the same processed form. *)
Theorem preprocess_word_by_word :
  (forall text,
     preprocess text
     = str_join " " (filter nonempty (map clean_word (str_split text))))
  /\ (forall text text',
        str_split text = str_split text' -> preprocess text = preprocess text').
Proof. split; [exact preprocess_by_words | exact preprocess_same_words]. Qed.

(** X2 on two texts that differ in their whitespace only. *)
Lemma preprocess_word_by_word_witness :
  str_split "  Hello,   World!" = str_split ("Hello," ++ LF ++ "World! ")
  /\ preprocess "  Hello,   World!" = preprocess ("Hello," ++ LF ++ "World! ").
Proof.
  assert (H : str_split "  Hello,   World!" = str_split ("Hello," ++ LF ++ "World! "))
    by reflexivity.
  split; [exact H|]. exact (proj2 preprocess_word_by_word _ _ H).
Defined.

Lemma join_chars_app_length (l1 l2 : list (list ascii)) :
  List.length (join_chars (l1 ++ l2))
  <= List.length (join_chars l1) + 1 + List.length (join_chars l2).
Proof.
  induction l1 as [|t l1 IH]; [cbn; lia|].
  destruct l1 as [|t' l1].
  - destruct l2 as [|t2 l2]; [cbn; lia|].
    change (([t] ++ t2 :: l2)%list) with (t :: t2 :: l2).
    rewrite join_chars_cons2, length_app. cbn [List.length join_chars]. lia.
  - change (((t :: t' :: l1) ++ l2)%list) with (t :: t' :: (l1 ++ l2)%list).
    rewrite !join_chars_cons2, !length_app. cbn [List.length].
    change (t' :: (l1 ++ l2)%list) with ((t' :: l1) ++ l2)%list. lia.
Qed.

Lemma split_from_length (cs tok : list ascii) :
  List.length (join_chars (split_from tok cs))
  <= List.length tok + List.length cs.
Proof.
  revert tok. induction cs as [|c cs IH]; intros tok; cbn [split_from].
  - destruct tok; cbn; lia.
  - destruct (isspace c).
    + pose proof (join_chars_app_length (emit tok) (split_from [] cs)) as H.
      pose proof (IH []) as H0. cbn [List.length] in *.
      assert (List.length (join_chars (emit tok)) <= List.length tok)
        by (destruct tok; cbn; lia).
      lia.
    + pose proof (IH (tok ++ [c])%list) as H. rewrite length_app in H.
      cbn [List.length] in *. lia.
Qed.

(** X3. The processed question is never longer than the question. *)
Theorem preprocess_length (text : string) :
  String.length (preprocess text) <= String.length text.
Proof.
  rewrite preprocess_chars, <- !length_chars, chars_of_chars.
  pose proof (split_from_length
                (filter word_or_space (map lower_char (chars text))) []) as H.
  pose proof (filter_length_le word_or_space (map lower_char (chars text))) as H0.
  rewrite length_map in H0. unfold split_chars. cbn [List.length] in H. lia.
Qed.

Lemma split_from_nonempty (cs tok : list ascii) :
  tok <> [] -> split_from tok cs <> [].
Proof.
  revert tok. induction cs as [|c cs IH]; intros tok Hne; cbn [split_from].
  - destruct tok; [congruence | discriminate].
  - destruct (isspace c).
    + destruct tok; [congruence | discriminate].
    + apply IH. now destruct tok.
Qed.

Lemma split_chars_nil (cs : list ascii) : split_chars cs = [] <-> allspace cs.
Proof.
  split; [|apply split_from_allspace].
  unfold split_chars. induction cs as [|c cs IH]; intros H; [constructor|].
  cbn [split_from] in H. destruct (isspace c) eqn:Hc.
  - constructor; [assumption | now apply IH].
  - exfalso. now apply (split_from_nonempty cs [c]).
Qed.

(** X4. The processed question is empty exactly when the question has no
    word character: questions made of whitespace and punctuation only, and
    no others, are processed to the empty string. *)
Theorem preprocess_empty_iff (text : string) :
  preprocess text = EmptyString
  <-> forall c, In c (chars text) -> isword c = false.
Proof.
  rewrite preprocess_chars.
  set (cs := filter word_or_space (map lower_char (chars text))).
  assert (Hnil : of_chars (join_chars (split_chars cs)) = EmptyString
                 <-> allspace cs).
  { rewrite <- split_chars_nil. split.
    - intros E. apply (f_equal chars) in E. rewrite chars_of_chars in E.
      pose proof (split_chars_good cs) as Hgood.
      destruct (split_chars cs) as [|tok rest]; [reflexivity|].
      inversion Hgood as [|? ? [Hne _] _]; subst.
      now destruct (join_chars_nonempty tok rest Hne).
    - now intros ->. }
  rewrite Hnil. unfold allspace. rewrite Forall_forall. subst cs. split.
  - intros H c Hc. destruct (isword c) eqn:Hw; [|reflexivity].
    assert (Hin : In (lower_char c)
                    (filter word_or_space (map lower_char (chars text)))).
    { apply filter_In. split; [now apply in_map|].
      unfold word_or_space. now rewrite isword_lower_char, Hw. }
    apply H in Hin. rewrite isspace_lower_char in Hin.
    now rewrite (isword_not_isspace c Hw) in Hin.
  - intros H c Hc. apply filter_In in Hc. destruct Hc as [Hc Hk].
    apply in_map_iff in Hc. destruct Hc as (c0 & <- & Hc0).
    unfold word_or_space in Hk.
    now rewrite isword_lower_char, (H c0 Hc0) in Hk.
Qed.

(** X4 on a question of punctuation and whitespace only. *)
Lemma preprocess_empty_iff_witness :
  (forall c, In c (chars " ?!... ") -> isword c = false)
  /\ preprocess " ?!... " = EmptyString.
Proof.
  assert (H : forall c, In c (chars " ?!... ") -> isword c = false).
  { intros c Hc. cbn in Hc.
    repeat (destruct Hc as [<- | Hc]; [reflexivity|]). destruct Hc. }
  split; [exact H|]. exact (proj2 (preprocess_empty_iff " ?!... ") H).
Defined.

Lemma split_from_trailing (ws cs tok : list ascii) :
  allspace ws -> split_from tok (cs ++ ws) = split_from tok cs.
Proof.
  intros Hws. revert tok. induction cs as [|c cs IH]; intros tok.
  - cbn [app split_from]. destruct Hws as [|c ws Hc Hws]; [reflexivity|].
    rewrite split_from_space, split_from_allspace by assumption.
    apply app_nil_r.
  - cbn [app split_from]. destruct (isspace c); now rewrite IH.
Qed.

Lemma split_chars_strip (cs : list ascii) :
  split_chars (rev (lstrip_chars (rev (lstrip_chars cs)))) = split_chars cs.
Proof.
  destruct (lstrip_split cs) as (ws & Hws & E).
  destruct (lstrip_split (rev (lstrip_chars cs))) as (ws' & Hws' & E').
  transitivity (split_chars (lstrip_chars cs)).
  - apply (f_equal (@rev ascii)) in E'. rewrite rev_involutive, rev_app_distr in E'.
    rewrite E' at 2. unfold split_chars. rewrite split_from_trailing; [reflexivity|].
    unfold allspace. now apply Forall_rev.
  - rewrite E at 2. unfold split_chars. clear E.
    induction Hws as [|c ws Hc _ IHws]; [reflexivity|].
    cbn [app]. now rewrite split_from_space by assumption.
Qed.

Lemma preprocess_strip (text : string) :
  preprocess (str_strip text) = preprocess text.
Proof.
  apply preprocess_same_words. unfold str_split, str_strip.
  now rewrite chars_of_chars, split_chars_strip.
Qed.


(** ** Prompt builder, continued *)

Lemma count_char_append (c : ascii) (s t : string) :
  count_char c (s ++ t) = count_char c s + count_char c t.
Proof. unfold count_char. now rewrite chars_append, filter_app, length_app. Qed.

Lemma count_char_absent (c : ascii) (s : string) :
  ~ In c (chars s) -> count_char c s = 0.
Proof.
  unfold count_char. induction (chars s) as [|d l IH]; intros H; [reflexivity|].
  cbn [filter]. destruct (Ascii.eqb c d) eqn:E.
  - apply Ascii.eqb_eq in E. subst d. destruct H. now left.
  - apply IH. intros Hin. apply H. now right.
Qed.

(** X6. Whatever the question, line feeds included, the prompt [ask_llm]
    builds has exactly two line feeds, those of the template: the processed
    question stays on the second line of the three. *)
Theorem prompt_three_lines (q : string) :
  ~ In (ascii_of_N 10) (chars (preprocess q))
  /\ count_char (ascii_of_N 10) (construct_prompt (preprocess q)) = 2.
Proof.
  assert (H : ~ In (ascii_of_N 10) (chars (preprocess q))).
  { intros Hin. destruct (preprocess_chars_normal q _ Hin) as [E | (_ & E & _)];
      discriminate E. }
  split; [exact H|]. unfold construct_prompt.
  rewrite !count_char_append, (count_char_absent _ _ H). reflexivity.
Qed.

(** ** Response shapes, continued *)

Lemma append_nil_r (s : string) : s ++ EmptyString = s.
Proof. induction s as [|c s IH]; simpl; [reflexivity | now rewrite IH]. Qed.

Lemma join_parts_strings (texts : list string) (i : nat) :
  join_parts i (map JString texts) = Return (String.concat EmptyString texts).
Proof.
  revert i. induction texts as [|s texts IH]; intros i; [reflexivity|].
  cbn [map join_parts]. rewrite IH. destruct texts as [|s' texts].
  - cbn. now rewrite append_nil_r.
  - reflexivity.
Qed.

(** X7. [send_to_gemini] tries the shapes of a decoded body in a fixed
    order, and the first that applies decides: the [output] of the first
    candidate; else the [content] of the first output, its fragments
    concatenated when it is a list; else the top-level [output]; else the
    top-level [text].  Each is returned stripped, and what is no string in
    the last three is converted by [str]. *)
Theorem gemini_text_order (d : list (string * JSON)) :
  (forall s,
     candidates_output d = Some (JString s) ->
     gemini_text (JDict d) = Return (str_strip s))
  /\ (candidates_output d = None ->
      (forall content texts,
         outputs_content d = Some (JList content) ->
         map part_text content = map JString texts ->
         gemini_text (JDict d)
         = Return (str_strip (String.concat EmptyString texts)))
      /\ (forall content,
            outputs_content d = Some content -> type_name content <> "list" ->
            gemini_text (JDict d) = Return (str_strip (py_str content)))
      /\ (outputs_content d = None ->
          (forall v,
             dict_get "output" d = Some v ->
             gemini_text (JDict d) = Return (str_strip (py_str v)))
          /\ (dict_get "output" d = None ->
              forall v,
                dict_get "text" d = Some v ->
                gemini_text (JDict d) = Return (str_strip (py_str v))))).
Proof.
  unfold gemini_text. rewrite from_candidates_shape, from_outputs_shape.
  split.
  - now intros s ->.
  - intros ->. split; [|split].
    + intros content texts -> E. now rewrite E, join_parts_strings.
    + intros content -> Hty. destruct content; try reflexivity. now destruct Hty.
    + intros ->. split.
      * now intros v ->.
      * now intros -> v ->.
Qed.

(** X7 on a body that has all four shapes, and on one that has the last
    two. *)
Lemma gemini_text_order_witness :
  gemini_text
    (JDict [("text", JString "d"); ("output", JString "c");
            ("outputs", JList [JDict [("content", JString "b")]]);
            ("candidates", JList [JDict [("output", JString " a ")]])])
  = Return "a"
  /\ gemini_text (JDict [("text", JString "d"); ("output", JInt 7)]) = Return "7".
Proof.
  split.
  - apply (proj1 (gemini_text_order _) " a "). reflexivity.
  - destruct (proj2 (gemini_text_order
                       [("text", JString "d"); ("output", JInt 7)]) eq_refl)
      as (_ & _ & H).
    exact (proj1 (H eq_refl) (JInt 7) eq_refl).
Defined.

(** X8. Whenever [send_to_gemini] takes its answer from a recognized shape,
    the answer has no whitespace at either end: stripping it again changes
    nothing. *)
Theorem gemini_text_stripped (data : JSON) (s : string) :
  recognized data = true -> gemini_text data = Return s -> str_strip s = s.
Proof.
  destruct data as [| | | | | |d]; try discriminate.
  unfold recognized, gemini_text.
  rewrite from_candidates_shape, from_outputs_shape.
  destruct (candidates_output d) as [v|].
  - intros _ H. destruct v; try discriminate.
    injection H as <-. apply str_strip_idempotent.
  - destruct (outputs_content d) as [content|].
    + intros _ H.
      destruct content;
        try (injection H as <-; apply str_strip_idempotent).
      destruct (join_parts 0 (map part_text items)); [|discriminate].
      injection H as <-. apply str_strip_idempotent.
    + destruct (dict_get "output" d) as [v|].
      * intros _ H. injection H as <-. apply str_strip_idempotent.
      * destruct (dict_get "text" d) as [v|]; [|discriminate].
        intros _ H. injection H as <-. apply str_strip_idempotent.
Qed.

(** X8 on a candidate with whitespace around its text. *)
Lemma gemini_text_stripped_witness :
  gemini_text (JDict [("candidates",
                       JList [JDict [("output", JString "  Paris ")]])])
  = Return "Paris"
  /\ str_strip "Paris" = "Paris".
Proof.
  split; [reflexivity|].
  exact (gemini_text_stripped
           (JDict [("candidates", JList [JDict [("output", JString "  Paris ")]])])
           "Paris" eq_refl eq_refl).
Defined.

(** ** Requests of the adapters *)


(** X9. On a response whose status is an error, whatever its body, each
    adapter raises a [RuntimeError] whose message is the name of the
    provider, the status code in decimal and the text of the response. *)
Theorem adapters_status_error (p : string) (w : World) (tr : list event)
    (resp : Response) :
  ok resp = false ->
  (truthy (environ w "GOOGLE_API_KEY") = true
   \/ truthy (environ w "GEMINI_API_KEY") = true ->
   (forall h key, network w h (gemini_request w key p) = Responded resp) ->
   fst (send_to_gemini p w tr)
   = Raise (Exn RuntimeError
              ("Gemini API error: " ++ str_of_int (status_code resp) ++ " "
               ++ text resp)))
  /\ (truthy (environ w "HUGGINGFACE_API_TOKEN") = true ->
      (forall h token, network w h (huggingface_request token p) = Responded resp) ->
      fst (send_to_huggingface p w tr)
      = Raise (Exn RuntimeError
                 ("HuggingFace API error: " ++ str_of_int (status_code resp) ++ " "
                  ++ text resp))).
Proof.
  intros Hok. split.
  - intros Hkey Hnet. now apply send_to_gemini_status_error.
  - intros Htok Hnet. destruct (truthy_true _ Htok) as (c & s & E).
    rewrite (send_to_huggingface_token p w tr c s E).
    unfold huggingface_exchange, huggingface_outcome. cbn [fst].
    now rewrite Hnet, Hok.
Qed.

(** X9 where Provider A answers 403. *)
Lemma adapters_status_error_witness :
  fst (send_to_gemini "Question: x" world_forbidden [])
  = Raise (Exn RuntimeError "Gemini API error: 403 Forbidden").
Proof.
  apply (proj1 (adapters_status_error "Question: x" world_forbidden []
                  {| status_code := 403; text := "Forbidden";
                     json := Undecodable "Expecting value" |} eq_refl)).
  - right. reflexivity.
  - intros h key. reflexivity.
Defined.

Lemma posts_app (l m : list event) : posts (l ++ m) = (posts l ++ posts m)%list.
Proof.
  induction l as [|[name|req] l IH]; cbn [app posts]; [reflexivity | assumption|].
  cbn [app]. now rewrite IH.
Qed.

(** What Provider A posts: nothing without a credential, else one request
    with the credential that was found. *)
Lemma send_to_gemini_posts (p : string) (w : World) (tr : list event) :
  exists evs,
    snd (send_to_gemini p w tr) = (tr ++ evs)%list
    /\ ((posts evs = [] /\ exists e, fst (send_to_gemini p w tr) = Raise e)
        \/ exists c s,
             posts evs = [gemini_request w (String c s) p]
             /\ (environ w "GOOGLE_API_KEY" = Some (String c s)
                 \/ (truthy (environ w "GOOGLE_API_KEY") = false
                     /\ environ w "GEMINI_API_KEY" = Some (String c s)))).
Proof.
  destruct (truthy (environ w "GOOGLE_API_KEY")) eqn:HG.
  - destruct (truthy_true _ HG) as (c & s & E).
    rewrite (send_to_gemini_google p w tr c s E). unfold gemini_exchange.
    cbn [snd]. rewrite <- app_assoc. eexists. split; [reflexivity|].
    right. exists c, s. split; [reflexivity | now left].
  - destruct (truthy (environ w "GEMINI_API_KEY")) eqn:HK.
    + destruct (truthy_true _ HK) as (c & s & E).
      rewrite (send_to_gemini_gemini p w tr c s HG E). unfold gemini_exchange.
      cbn [snd]. rewrite <- app_assoc. eexists. split; [reflexivity|].
      right. exists c, s. split; [reflexivity | now right].
    + rewrite (send_to_gemini_no_key p w tr HG HK). cbn [snd fst].
      eexists. split; [reflexivity|]. left. split; [reflexivity | now eexists].
Qed.

Lemma send_to_huggingface_posts (p : string) (w : World) (tr : list event) :
  exists evs,
    snd (send_to_huggingface p w tr) = (tr ++ evs)%list
    /\ (posts evs = []
        \/ exists c s,
             posts evs = [huggingface_request (String c s) p]
             /\ environ w "HUGGINGFACE_API_TOKEN" = Some (String c s)).
Proof.
  destruct (truthy (environ w "HUGGINGFACE_API_TOKEN")) eqn:HT.
  - destruct (truthy_true _ HT) as (c & s & E).
    rewrite (send_to_huggingface_token p w tr c s E). unfold huggingface_exchange.
    cbn [snd]. rewrite <- app_assoc. eexists. split; [reflexivity|].
    right. now exists c, s.
  - rewrite (send_to_huggingface_no_token p w tr HT). cbn [snd].
    eexists. split; [reflexivity | now left].
Qed.

Lemma gemini_request_url (w : World) (key p : string) :
  req_url (gemini_request w key p)
  = gemini_base w ++ getenv_default w "GEMINI_MODEL" "models/text-bison-001"
    ++ ":generateText?key=" ++ key.
Proof.
  unfold gemini_request, gemini_base. cbn [req_url].
  now destruct (str_endswith _ "/").
Qed.




(** ** Requests of the orchestrator *)

Section OrchestratorTrace.

Variables (q : string) (w : World) (tr : list event).

(** A run of [ask_llm], with the events of each provider. *)
Lemma ask_llm_trace :
  exists r evsA evsB,
    ask_llm q w tr = (Return r, (tr ++ evsA ++ evsB)%list)
    /\ question r = q
    /\ processed r = preprocess q
    /\ prompt r = construct_prompt (preprocess q)
    /\ snd (send_to_gemini (construct_prompt (preprocess q)) w tr)
       = (tr ++ evsA)%list
    /\ ((source r = "gemini" /\ evsB = []
         /\ exists a,
              answer r = JString a
              /\ fst (send_to_gemini (construct_prompt (preprocess q)) w tr)
                 = Return a)
        \/ (source r <> "gemini"
            /\ snd (send_to_huggingface (construct_prompt (preprocess q)) w
                      (tr ++ evsA)%list)
               = ((tr ++ evsA) ++ evsB)%list
            /\ (source r = "huggingface"
                \/ (source r = "simulated" /\ exists a, answer r = JString a)))).
Proof.
  destruct (send_to_gemini_events (construct_prompt (preprocess q)) w tr)
    as (evsA & EA & _).
  destruct (send_to_huggingface_events (construct_prompt (preprocess q)) w
              (tr ++ evsA)%list) as (evsB & EB).
  destruct (ask_llm_cases q w tr)
    as [(a & tr1 & HA)
       | [(e & tr1 & a & tr2 & HA & HB) | (e & tr1 & e2 & tr2 & HA & HB)]];
    rewrite HA in EA; cbn [snd] in EA; subst tr1.
  - eexists _, evsA, []. rewrite app_nil_r.
    split; [apply (ask_llm_first _ _ _ _ _ HA)|].
    cbn [question processed prompt source answer].
    do 3 (split; [reflexivity|]). split; [now rewrite HA|].
    left. repeat split. exists a. now rewrite HA.
  - rewrite HB in EB. cbn [snd] in EB. subst tr2.
    eexists _, evsA, (Getenv "HUGGINGFACE_API_TOKEN" :: evsB).
    rewrite app_assoc.
    split; [apply (ask_llm_second _ _ _ _ _ _ _ HA HB)|].
    cbn [question processed prompt source answer].
    do 3 (split; [reflexivity|]). split; [now rewrite HA|].
    right. split; [discriminate|]. split; [now rewrite HB | now left].
  - rewrite HB in EB. cbn [snd] in EB. subst tr2.
    eexists _, evsA, (Getenv "HUGGINGFACE_API_TOKEN" :: evsB).
    rewrite app_assoc.
    split; [apply (ask_llm_neither _ _ _ _ _ _ _ HA HB)|].
    cbn [question processed prompt source answer].
    do 3 (split; [reflexivity|]). split; [now rewrite HA|].
    right. split; [discriminate|]. split; [now rewrite HB|].
    right. split; [reflexivity|]. eexists. reflexivity.
Qed.

(** The requests of a run: at most one of each provider, Provider A's
    first. *)
Lemma ask_llm_posts :
  exists r evs a b,
    ask_llm q w tr = (Return r, (tr ++ evs)%list)
    /\ question r = q
    /\ processed r = preprocess q
    /\ prompt r = construct_prompt (preprocess q)
    /\ posts evs = (a ++ b)%list
    /\ (a = [] \/ exists key, a = [gemini_request w key (prompt r)])
    /\ (b = [] \/ exists token, b = [huggingface_request token (prompt r)])
    /\ (source r = "gemini" -> a <> [] /\ b = [])
    /\ (source r <> "huggingface" -> exists s, answer r = JString s).
Proof.
  destruct ask_llm_trace as (r & evsA & evsB & Hrun & Hq & Hp & Hprompt & EA & Hsrc).
  destruct (send_to_gemini_posts (construct_prompt (preprocess q)) w tr)
    as (evsA' & EA' & HpA).
  rewrite EA in EA'. apply app_inv_head in EA'. subst evsA'.
  exists r, (evsA ++ evsB)%list, (posts evsA), (posts evsB).
  split; [exact Hrun|]. do 3 (split; [assumption|]). rewrite Hprompt.
  split; [apply posts_app|].
  split; [destruct HpA as [[-> _] | (c & s & -> & _)];
          [now left | right; now eexists]|].
  destruct Hsrc as [(Hs & -> & a & Ha & Hfst) | (Hs & EB & Hrest)].
  - split; [now left|]. split; [|intros _; now exists a].
    intros _. split; [|reflexivity].
    destruct HpA as [[_ (e & He)] | (c & s & -> & _)]; [congruence | discriminate].
  - destruct (send_to_huggingface_posts (construct_prompt (preprocess q)) w
                (tr ++ evsA)%list) as (evsB' & EB' & HpB).
    rewrite EB in EB'. apply app_inv_head in EB'. subst evsB'.
    split; [destruct HpB as [-> | (c & s & -> & _)];
            [now left | right; now eexists]|].
    split; [intros Hg; now destruct Hs|].
    intros Hnot. destruct Hrest as [Hh | [_ Ha]]; [now destruct Hnot | exact Ha].
Qed.

End OrchestratorTrace.

Lemma ask_llm_returns (q : string) (w : World) (tr : list event) :
  exists r tr', ask_llm q w tr = (Return r, tr').
Proof.
  destruct (ask_llm_trace q w tr) as (r & evsA & evsB & Hrun & _).
  exists r. eexists. exact Hrun.
Qed.

(** X11. A run of [ask_llm] posts at most two requests: at most one of
    Provider A, then at most one of Provider B.  It posts exactly one when
    the answer comes from Provider A, and none when no credential is
    configured. *)
Theorem ask_llm_at_most_two_requests (q : string) (w : World) (tr : list event) :
  exists r evs,
    ask_llm q w tr = (Return r, (tr ++ evs)%list)
    /\ List.length (posts evs) <= 2
    /\ (exists a b,
          posts evs = (a ++ b)%list
          /\ (a = [] \/ exists key, a = [gemini_request w key (prompt r)])
          /\ (b = [] \/ exists token, b = [huggingface_request token (prompt r)]))
    /\ (source r = "gemini" -> List.length (posts evs) = 1)
    /\ (no_credentials w -> posts evs = []).
Proof.
  destruct (ask_llm_posts q w tr)
    as (r & evs & a & b & Hrun & _ & _ & _ & Hposts & Ha & Hb & Hg & _).
  exists r, evs. split; [exact Hrun|]. rewrite Hposts, length_app.
  split; [|split; [|split]].
  - destruct Ha as [-> | (key & ->)], Hb as [-> | (token & ->)]; cbn; lia.
  - now exists a, b.
  - intros Hs. destruct (Hg Hs) as [Hne ->].
    destruct Ha as [-> | (key & ->)]; [congruence | reflexivity].
  - intros (HG & HK & HT).
    pose proof (ask_llm_neither q w tr _ _ _ _
                  (send_to_gemini_no_key _ w tr HG HK)
                  (send_to_huggingface_no_token _ w _ HT)) as Hrun'.
    rewrite Hrun in Hrun'. injection Hrun' as _ E.
    rewrite <- app_assoc in E. apply app_inv_head in E.
    rewrite <- Hposts, E. reflexivity.
Qed.

(** X11 where nothing is configured: no request at all. *)
Lemma ask_llm_at_most_two_requests_witness :
  exists r evs,
    ask_llm "Why?" world_unconfigured [] = (Return r, evs)
    /\ posts evs = [].
Proof.
  destruct (ask_llm_at_most_two_requests "Why?" world_unconfigured [])
    as (r & evs & Hrun & _ & _ & _ & Hnone).
  exists r, evs. split; [exact Hrun|].
  apply Hnone. repeat split.
Defined.

(** X12. The record [ask_llm] returns reports what was sent: its question
    is the question as given, its processed question and its prompt are
    those of [preprocess] and [construct_prompt], and every request of the
    run carries exactly that prompt, with a timeout of 60.  The answer is a
    [str] unless it comes from Provider B, whose [generated_text] is passed
    on as it is. *)
Theorem ask_llm_record_reports_request (q : string) (w : World) (tr : list event) :
  exists r evs,
    ask_llm q w tr = (Return r, (tr ++ evs)%list)
    /\ question r = q
    /\ processed r = preprocess q
    /\ prompt r = construct_prompt (processed r)
    /\ (forall req,
          In req (posts evs) ->
          request_prompt req = Some (JString (prompt r)) /\ req_timeout req = 60%Z)
    /\ (source r <> "huggingface" -> exists s, answer r = JString s).
Proof.
  destruct (ask_llm_posts q w tr)
    as (r & evs & a & b & Hrun & Hq & Hp & Hprompt & Hposts & Ha & Hb & _ & Hans).
  exists r, evs. split; [exact Hrun|]. split; [exact Hq|]. split; [exact Hp|].
  split; [now rewrite Hp|]. split; [|exact Hans].
  intros req Hin. rewrite Hposts in Hin. apply in_app_or in Hin.
  destruct Hin as [Hin | Hin].
  - destruct Ha as [-> | (key & ->)]; [destruct Hin|].
    destruct Hin as [<- | []]. now split.
  - destruct Hb as [-> | (token & ->)]; [destruct Hin|].
    destruct Hin as [<- | []]. now split.
Qed.

(** X12 where Provider A answers: its request carries the prompt of the
    record. *)
Lemma ask_llm_record_reports_request_witness :
  exists r evs,
    ask_llm "Capital of France?" world_paris [] = (Return r, evs)
    /\ request_prompt (gemini_request world_paris "key-a" (prompt r))
       = Some (JString (prompt r))
    /\ exists s, answer r = JString s.
Proof.
  destruct (ask_llm_record_reports_request "Capital of France?" world_paris [])
    as (r & evs & Hrun & _ & _ & _ & Hreq & Hans).
  exists r, evs. split; [exact Hrun|].
  pose proof Hrun as Hrun'. vm_compute in Hrun'. injection Hrun' as Er Eevs.
  split.
  - apply Hreq. rewrite <- Eevs, <- Er. cbn. now left.
  - apply Hans. rewrite <- Er. discriminate.
Defined.

(** ** What [ask_llm] reads *)

Lemma reads_app (l m : list event) : reads (l ++ m) = (reads l ++ reads m)%list.
Proof.
  induction l as [|[name|req] l IH]; cbn [app reads]; [reflexivity | | assumption].
  cbn [app]. now rewrite IH.
Qed.

Lemma gemini_exchange_same_on (key p : string) (w w' : World) (h : list event) :
  same_on adapter_variables w w' ->
  gemini_exchange w key p h = gemini_exchange w' key p h.
Proof.
  intros [Hnet Henv]. unfold gemini_exchange, gemini_request, getenv_default.
  rewrite (Henv "GEMINI_MODEL"), (Henv "GEMINI_BASE_URL"), Hnet by (cbn; auto 6).
  reflexivity.
Qed.

Lemma send_to_gemini_same_on (p : string) (w w' : World) (tr : list event) :
  same_on adapter_variables w w' ->
  send_to_gemini p w tr = send_to_gemini p w' tr.
Proof.
  intros H. pose proof H as [_ Henv].
  assert (EG : environ w "GOOGLE_API_KEY" = environ w' "GOOGLE_API_KEY")
    by (apply Henv; cbn; auto 6).
  assert (EK : environ w "GEMINI_API_KEY" = environ w' "GEMINI_API_KEY")
    by (apply Henv; cbn; auto 6).
  destruct (truthy (environ w "GOOGLE_API_KEY")) eqn:HG.
  - destruct (truthy_true _ HG) as (c & s & E).
    rewrite (send_to_gemini_google p w tr c s E).
    rewrite EG in E. rewrite (send_to_gemini_google p w' tr c s E).
    now apply gemini_exchange_same_on.
  - destruct (truthy (environ w "GEMINI_API_KEY")) eqn:HK.
    + destruct (truthy_true _ HK) as (c & s & E).
      rewrite (send_to_gemini_gemini p w tr c s HG E).
      rewrite EG in HG. rewrite EK in E.
      rewrite (send_to_gemini_gemini p w' tr c s HG E).
      now apply gemini_exchange_same_on.
    + rewrite (send_to_gemini_no_key p w tr HG HK).
      rewrite EG in HG. rewrite EK in HK.
      now rewrite (send_to_gemini_no_key p w' tr HG HK).
Qed.

Lemma send_to_huggingface_same_on (p : string) (w w' : World) (tr : list event) :
  same_on adapter_variables w w' ->
  send_to_huggingface p w tr = send_to_huggingface p w' tr.
Proof.
  intros [Hnet Henv].
  assert (ET : environ w "HUGGINGFACE_API_TOKEN" = environ w' "HUGGINGFACE_API_TOKEN")
    by (apply Henv; cbn; auto 6).
  destruct (truthy (environ w "HUGGINGFACE_API_TOKEN")) eqn:HT.
  - destruct (truthy_true _ HT) as (c & s & E).
    rewrite (send_to_huggingface_token p w tr c s E).
    rewrite ET in E. rewrite (send_to_huggingface_token p w' tr c s E).
    unfold huggingface_exchange. now rewrite Hnet.
  - rewrite (send_to_huggingface_no_token p w tr HT).
    rewrite ET in HT. now rewrite (send_to_huggingface_no_token p w' tr HT).
Qed.

Lemma ask_llm_same_on (q : string) (w w' : World) (tr : list event) :
  same_on adapter_variables w w' -> ask_llm q w tr = ask_llm q w' tr.
Proof.
  intros H.
  destruct (ask_llm_cases q w tr)
    as [(a & tr1 & HA)
       | [(e & tr1 & a & tr2 & HA & HB) | (e & tr1 & e2 & tr2 & HA & HB)]].
  - rewrite (ask_llm_first _ _ _ _ _ HA).
    rewrite (send_to_gemini_same_on _ w w' tr H) in HA.
    now rewrite (ask_llm_first _ _ _ _ _ HA).
  - rewrite (ask_llm_second _ _ _ _ _ _ _ HA HB).
    rewrite (send_to_gemini_same_on _ w w' tr H) in HA.
    rewrite (send_to_huggingface_same_on _ w w' tr1 H) in HB.
    now rewrite (ask_llm_second _ _ _ _ _ _ _ HA HB).
  - rewrite (ask_llm_neither _ _ _ _ _ _ _ HA HB).
    rewrite (send_to_gemini_same_on _ w w' tr H) in HA.
    rewrite (send_to_huggingface_same_on _ w w' tr1 H) in HB.
    now rewrite (ask_llm_neither _ _ _ _ _ _ _ HA HB).
Qed.

Lemma send_to_gemini_reads (p : string) (w : World) (tr : list event) :
  exists evs,
    snd (send_to_gemini p w tr) = (tr ++ evs)%list
    /\ incl (reads evs) adapter_variables.
Proof.
  destruct (truthy (environ w "GOOGLE_API_KEY")) eqn:HG.
  - destruct (truthy_true _ HG) as (c & s & E).
    rewrite (send_to_gemini_google p w tr c s E). unfold gemini_exchange.
    cbn [snd]. rewrite <- app_assoc. eexists. split; [reflexivity|].
    intros x Hx. cbn in Hx |- *. intuition.
  - destruct (truthy (environ w "GEMINI_API_KEY")) eqn:HK.
    + destruct (truthy_true _ HK) as (c & s & E).
      rewrite (send_to_gemini_gemini p w tr c s HG E). unfold gemini_exchange.
      cbn [snd]. rewrite <- app_assoc. eexists. split; [reflexivity|].
      intros x Hx. cbn in Hx |- *. intuition.
    + rewrite (send_to_gemini_no_key p w tr HG HK). cbn [snd].
      eexists. split; [reflexivity|]. intros x Hx. cbn in Hx |- *. intuition.
Qed.

Lemma send_to_huggingface_reads (p : string) (w : World) (tr : list event) :
  exists evs,
    snd (send_to_huggingface p w tr) = (tr ++ evs)%list
    /\ incl (reads evs) adapter_variables.
Proof.
  destruct (truthy (environ w "HUGGINGFACE_API_TOKEN")) eqn:HT.
  - destruct (truthy_true _ HT) as (c & s & E).
    rewrite (send_to_huggingface_token p w tr c s E). unfold huggingface_exchange.
    cbn [snd]. rewrite <- app_assoc. eexists. split; [reflexivity|].
    intros x Hx. cbn in Hx |- *. intuition.
  - rewrite (send_to_huggingface_no_token p w tr HT). cbn [snd].
    eexists. split; [reflexivity|]. intros x Hx. cbn in Hx |- *. intuition.
Qed.

(** X13. [ask_llm] depends on the environment through five names only,
    [GOOGLE_API_KEY], [GEMINI_API_KEY], [GEMINI_MODEL], [GEMINI_BASE_URL]
    and [HUGGINGFACE_API_TOKEN]: it reads no other, and in two worlds with
    the same network that agree on the five it returns the same record
    after the same events. *)
Theorem ask_llm_reads_five_names (q : string) (w : World) (tr : list event) :
  (exists r evs,
     ask_llm q w tr = (Return r, (tr ++ evs)%list)
     /\ incl (reads evs) adapter_variables)
  /\ (forall w', same_on adapter_variables w w' -> ask_llm q w tr = ask_llm q w' tr).
Proof.
  split; [|intros w'; apply ask_llm_same_on].
  destruct (ask_llm_trace q w tr)
    as (r & evsA & evsB & Hrun & _ & _ & _ & EA & Hsrc).
  exists r, (evsA ++ evsB)%list. split; [exact Hrun|].
  rewrite reads_app. apply incl_app.
  - destruct (send_to_gemini_reads (construct_prompt (preprocess q)) w tr)
      as (evs & E & Hincl).
    rewrite EA in E. apply app_inv_head in E. now subst evs.
  - destruct Hsrc as [(_ & -> & _) | (_ & EB & _)]; [intros x []|].
    destruct (send_to_huggingface_reads (construct_prompt (preprocess q)) w
                (tr ++ evsA)%list) as (evs & E & Hincl).
    rewrite EB in E. apply app_inv_head in E. now subst evs.
Qed.

(** X13 for a world and the same world with [OPENAI_API_KEY] set. *)
Lemma ask_llm_reads_five_names_witness :
  ask_llm "Capital of France?" world_paris []
  = ask_llm "Capital of France?"
      (environ_set "OPENAI_API_KEY" "key-o" world_paris) [].
Proof.
  apply (proj2 (ask_llm_reads_five_names "Capital of France?" world_paris [])).
  split; [reflexivity|].
  intros name Hin. cbn in Hin. unfold environ_set, setenv. cbn [environ].
  destruct Hin as [<- | [<- | [<- | [<- | [<- | []]]]]]; reflexivity.
Defined.

(** ** The command line *)

Lemma main_asks (args : Args) (line : option string) (w : World)
    (tr : list event) (q : string) :
  asked_question args line = Some q ->
  exists r tr',
    ask_llm q (configure args w) tr = (Return r, tr')
    /\ main args line w tr
       = {| run_exit := Returned;
            run_stdout := (input_prompt args ++ report r)%list;
            run_world := configure args w;
            run_trace := tr' |}.
Proof.
  intros Hq.
  destruct (ask_llm_returns q (configure args w) tr) as (r & tr' & Hrun).
  exists r, tr'. split; [exact Hrun|].
  unfold main, asked_question, input_prompt in *.
  destruct (args_question args) as [[|word words]|].
  - subst line. now rewrite Hrun.
  - replace q with (str_join " " (word :: words)) in Hrun by congruence.
    now rewrite Hrun.
  - subst line. now rewrite Hrun.
Qed.

Lemma main_end_of_input (args : Args) (line : option string) (w : World)
    (tr : list event) :
  asked_question args line = None ->
  main args line w tr
  = {| run_exit := RaisedEOFError; run_stdout := ["Enter your question: "];
       run_world := configure args w; run_trace := tr |}.
Proof.
  unfold main, asked_question.
  destruct (args_question args) as [[|word words]|]; try discriminate;
    now intros ->.
Qed.



Lemma configure_gemini_key (args : Args) (w : World) (c : ascii) (s : string) :
  args_api_key args = Some (String c s) ->
  args_provider args = ProviderGemini ->
  environ (configure args w) "GOOGLE_API_KEY" = Some (String c s)
  /\ environ (configure args w) "GEMINI_API_KEY" = Some (String c s).
Proof.
  intros Hk Hp. unfold configure. rewrite Hk, Hp.
  destruct (args_model args) as [[|c' s']|]; split; reflexivity.
Qed.

(** X15. A key given with [--api-key] for the provider [gemini] (the
    default) is the credential of Provider A whatever the environment
    held: both variables hold it afterwards, and the first request of the
    run is Provider A's with that key at the end of its address. *)
Theorem main_inline_gemini_key (args : Args) (line : option string) (w : World)
    (tr : list event) (key q : string) :
  args_api_key args = Some key -> key <> EmptyString ->
  args_provider args = ProviderGemini ->
  asked_question args line = Some q ->
  environ (run_world (main args line w tr)) "GOOGLE_API_KEY" = Some key
  /\ environ (run_world (main args line w tr)) "GEMINI_API_KEY" = Some key
  /\ exists evs rest,
       run_trace (main args line w tr) = (tr ++ evs)%list
       /\ posts evs
          = gemini_request (configure args w) key (construct_prompt (preprocess q))
            :: rest
       /\ exists base,
            req_url (gemini_request (configure args w) key
                       (construct_prompt (preprocess q)))
            = base ++ ":generateText?key=" ++ key.
Proof.
  intros Hk Hne Hp Hq. destruct key as [|c s]; [congruence|].
  destruct (configure_gemini_key args w c s Hk Hp) as [HG HK].
  destruct (main_asks args line w tr q Hq) as (r & tr' & Hrun & ->).
  cbn [run_world run_trace]. split; [exact HG|]. split; [exact HK|].
  destruct (ask_llm_trace q (configure args w) tr)
    as (r' & evsA & evsB & Hrun' & _ & _ & _ & EA & _).
  rewrite Hrun in Hrun'. injection Hrun' as _ ->.
  rewrite (send_to_gemini_google _ _ tr c s HG) in EA.
  unfold gemini_exchange in EA. cbn [snd] in EA. rewrite <- app_assoc in EA.
  apply app_inv_head in EA. subst evsA.
  eexists _, (posts evsB). split; [reflexivity|]. split; [reflexivity|].
  rewrite gemini_request_url. eexists (_ ++ _). now rewrite append_assoc.
Qed.

(** X15 in a world that held another key. *)
Lemma main_inline_gemini_key_witness :
  environ world_paris "GOOGLE_API_KEY" = Some "key-a"
  /\ exists evs rest,
       run_trace (main {| args_question := Some ["Why?"];
                          args_api_key := Some "key-z";
                          args_provider := ProviderGemini;
                          args_model := None |} None world_paris [])
       = evs
       /\ posts evs
          = gemini_request world_paris "key-z" (construct_prompt (preprocess "Why?"))
            :: rest.
Proof.
  split; [reflexivity|].
  destruct (main_inline_gemini_key
              {| args_question := Some ["Why?"]; args_api_key := Some "key-z";
                 args_provider := ProviderGemini; args_model := None |}
              None world_paris [] "key-z" "Why?" eq_refl
              ltac:(discriminate) eq_refl eq_refl)
    as (_ & _ & evs & rest & Htr & Hposts & _).
  exists evs, rest. split; [exact Htr | exact Hposts].
Defined.

Lemma configure_without_key (args : Args) (w : World) :
  args_provider args = ProviderOpenai \/ truthy (args_api_key args) = false ->
  same_on adapter_variables (configure args w) (configure (without_api_key args) w).
Proof.
  intros H. unfold configure, without_api_key. cbn [args_api_key args_model].
  destruct (args_api_key args) as [[|c s]|] eqn:Hk;
    try (split; reflexivity).
  destruct H as [-> | H]; [|discriminate H].
  split.
  - now destruct (args_model args) as [[|c' s']|].
  - intros name Hin. cbn in Hin.
    destruct (args_model args) as [[|c' s']|];
      destruct Hin as [<- | [<- | [<- | [<- | [<- | []]]]]]; reflexivity.
Qed.

(** X16. A key given with [--api-key] for the provider [openai], like an
    empty key, changes nothing of what [main] does: it ends the same way,
    prints the same and calls the providers the same way as without
    [--api-key], since no adapter reads [OPENAI_API_KEY]. *)
Theorem main_openai_key_ignored (args : Args) (line : option string)
    (w : World) (tr : list event) :
  args_provider args = ProviderOpenai \/ truthy (args_api_key args) = false ->
  run_exit (main args line w tr) = run_exit (main (without_api_key args) line w tr)
  /\ run_stdout (main args line w tr)
     = run_stdout (main (without_api_key args) line w tr)
  /\ run_trace (main args line w tr)
     = run_trace (main (without_api_key args) line w tr).
Proof.
  intros H. pose proof (configure_without_key args w H) as Hsame.
  destruct (asked_question args line) as [q|] eqn:Hq.
  - destruct (main_asks args line w tr q Hq) as (r & tr' & Hrun & ->).
    destruct (main_asks (without_api_key args) line w tr q Hq)
      as (r' & tr'' & Hrun' & ->).
    rewrite (ask_llm_same_on q _ _ tr Hsame), Hrun' in Hrun.
    injection Hrun as -> ->. repeat split; reflexivity.
  - rewrite (main_end_of_input args line w tr Hq).
    rewrite (main_end_of_input (without_api_key args) line w tr Hq).
    repeat split; reflexivity.
Qed.

(** X16 for a key of the provider [openai]. *)
Lemma main_openai_key_ignored_witness :
  run_stdout (main {| args_question := Some ["Why?"];
                      args_api_key := Some "key-o";
                      args_provider := ProviderOpenai;
                      args_model := None |} None world_paris [])
  = run_stdout (main {| args_question := Some ["Why?"];
                        args_api_key := None;
                        args_provider := ProviderOpenai;
                        args_model := None |} None world_paris []).
Proof.
  exact (proj1 (proj2 (main_openai_key_ignored
                         {| args_question := Some ["Why?"];
                            args_api_key := Some "key-o";
                            args_provider := ProviderOpenai;
                            args_model := None |} None world_paris []
                         (or_introl eq_refl)))).
Defined.



(** ** The web form *)

Section WebFormProperties.

Variable format_exc : exn -> string.

Lemma index_blank (request : FormRequest) (w : World) (tr : list event) :
  String.eqb (request_method request) "POST" = false
  \/ submitted_question request = EmptyString ->
  index format_exc request w tr
  = ({| page_template := "index.html"; page_question := EmptyString;
        page_result := None; page_error := None |}, tr).
Proof.
  unfold index, submitted_question.
  destruct (String.eqb (request_method request) "POST").
  - intros [H | H]; [discriminate H|]. now rewrite H.
  - reflexivity.
Qed.

Lemma index_asks (request : FormRequest) (w : World) (tr : list event) :
  String.eqb (request_method request) "POST" = true ->
  submitted_question request <> EmptyString ->
  exists r tr',
    ask_llm (submitted_question request) w tr = (Return r, tr')
    /\ index format_exc request w tr
       = ({| page_template := "index.html";
             page_question := submitted_question request;
             page_result := Some r; page_error := None |}, tr').
Proof.
  intros Hm Hne.
  destruct (ask_llm_returns (submitted_question request) w tr)
    as (r & tr' & Hrun).
  exists r, tr'. split; [exact Hrun|].
  unfold index. rewrite Hm. fold (submitted_question request).
  destruct (submitted_question request) as [|c s] eqn:E; [congruence|].
  now rewrite Hrun.
Qed.

(** X18. The page [index] renders never carries an error: the handler of
    the exception of [ask_llm] is never entered, so the text of the
    traceback plays no part.  The template is always [index.html]. *)
Theorem index_never_errors (request : FormRequest) (w : World) (tr : list event) :
  page_error (fst (index format_exc request w tr)) = None
  /\ page_template (fst (index format_exc request w tr)) = "index.html"
  /\ forall format_exc' : exn -> string,
       index format_exc' request w tr = index format_exc request w tr.
Proof.
  assert (H : forall f : exn -> string,
    page_error (fst (index f request w tr)) = None
    /\ page_template (fst (index f request w tr)) = "index.html"
    /\ index f request w tr = index (fun _ => EmptyString) request w tr).
  { intros f. unfold index.
    destruct (String.eqb (request_method request) "POST"); [|now repeat split].
    destruct (str_strip _) as [|c s]; [now repeat split|].
    destruct (ask_llm_returns (String c s) w tr) as (r & tr' & ->).
    now repeat split. }
  destruct (H format_exc) as (H1 & H2 & H3). split; [exact H1|]. split; [exact H2|].
  intros f. destruct (H f) as (_ & _ & H4). now rewrite H3, H4.
Qed.

(** X19. [index] calls [ask_llm] exactly for a [POST] whose question is not
    blank.  For any other request ([GET], no [question] field, a question
    of whitespace only) it renders the empty form, with no result, and
    reads and posts nothing. *)
Theorem index_asks_iff_not_blank (request : FormRequest) (w : World)
    (tr : list event) :
  (String.eqb (request_method request) "POST" = false
   \/ submitted_question request = EmptyString ->
   index format_exc request w tr
   = ({| page_template := "index.html"; page_question := EmptyString;
         page_result := None; page_error := None |}, tr))
  /\ (String.eqb (request_method request) "POST" = true ->
      submitted_question request <> EmptyString ->
      exists r tr',
        ask_llm (submitted_question request) w tr = (Return r, tr')
        /\ index format_exc request w tr
           = ({| page_template := "index.html";
                 page_question := submitted_question request;
                 page_result := Some r; page_error := None |}, tr')).
Proof. split; [apply index_blank | apply index_asks]. Qed.

End WebFormProperties.

(** X19 for a question of whitespace only, and for a question. *)
Lemma index_asks_iff_not_blank_witness :
  index (fun _ => EmptyString)
    {| request_method := "POST"; request_form := [("question", "   ")] |}
    world_paris []
  = ({| page_template := "index.html"; page_question := EmptyString;
        page_result := None; page_error := None |}, [])
  /\ exists r tr',
       index (fun _ => EmptyString)
         {| request_method := "POST"; request_form := [("question", " Why? ")] |}
         world_paris []
       = ({| page_template := "index.html"; page_question := "Why?";
             page_result := Some r; page_error := None |}, tr').
Proof.
  split.
  - apply (proj1 (index_asks_iff_not_blank (fun _ => EmptyString)
                    {| request_method := "POST";
                       request_form := [("question", "   ")] |} world_paris [])).
    right. reflexivity.
  - destruct (proj2 (index_asks_iff_not_blank (fun _ => EmptyString)
                       {| request_method := "POST";
                          request_form := [("question", " Why? ")] |}
                       world_paris []) eq_refl ltac:(discriminate))
      as (r & tr' & _ & H).
    exists r, tr'. exact H.
Defined.

(** X20. The stripping of the web form changes the echoed question and
    nothing else: for the stripped question [ask_llm] builds the same
    processed question and prompt, goes through the same events and
    returns the same answer, source and errors as for the question as
    typed. *)
Theorem ask_llm_stripped_question (text : string) (w : World) (tr : list event) :
  exists r r' tr',
    ask_llm text w tr = (Return r, tr')
    /\ ask_llm (str_strip text) w tr = (Return r', tr')
    /\ question r' = str_strip text
    /\ processed r' = processed r
    /\ prompt r' = prompt r
    /\ answer r' = answer r
    /\ source r' = source r
    /\ errors r' = errors r.
Proof.
  pose proof (preprocess_strip text) as E.
  destruct (ask_llm_cases text w tr)
    as [(a & tr1 & HA)
       | [(e & tr1 & a & tr2 & HA & HB) | (e & tr1 & e2 & tr2 & HA & HB)]].
  - eexists _, _, _. split; [apply (ask_llm_first _ _ _ _ _ HA)|].
    rewrite <- E in HA.
    split; [apply (ask_llm_first _ _ _ _ _ HA)|].
    cbn [question processed prompt answer source errors].
    rewrite E. repeat split.
  - eexists _, _, _. split; [apply (ask_llm_second _ _ _ _ _ _ _ HA HB)|].
    rewrite <- E in HA, HB.
    split; [apply (ask_llm_second _ _ _ _ _ _ _ HA HB)|].
    cbn [question processed prompt answer source errors].
    rewrite E. repeat split.
  - eexists _, _, _. split; [apply (ask_llm_neither _ _ _ _ _ _ _ HA HB)|].
    rewrite <- E in HA, HB.
    split; [apply (ask_llm_neither _ _ _ _ _ _ _ HA HB)|].
    cbn [question processed prompt answer source errors].
    rewrite E. repeat split.
Qed.

Lemma configure_huggingface_key (args : Args) (w : World) (c : ascii) (s : string) :
  args_api_key args = Some (String c s) ->
  args_provider args = ProviderHuggingface ->
  environ (configure args w) "HUGGINGFACE_API_TOKEN" = Some (String c s)
  /\ environ (configure args w) "GOOGLE_API_KEY" = environ w "GOOGLE_API_KEY"
  /\ environ (configure args w) "GEMINI_API_KEY" = environ w "GEMINI_API_KEY".
Proof.
  intros Hk Hp. unfold configure. rewrite Hk, Hp.
  destruct (args_model args) as [[|c' s']|]; repeat split; reflexivity.
Qed.

(** X21. [--provider] names the variable that receives the key, not the
    provider that is asked: with [--provider huggingface] the key becomes
    the token of Provider B and the credentials of Provider A stay as the
    environment has them, so Provider A is still asked first, and when it
    answers, the report names [gemini] and Provider B is not called. *)
Theorem main_provider_is_not_preferred (args : Args) (line : option string)
    (w : World) (tr : list event) (key q a : string) (tr1 : list event) :
  args_api_key args = Some key -> key <> EmptyString ->
  args_provider args = ProviderHuggingface ->
  asked_question args line = Some q ->
  send_to_gemini (construct_prompt (preprocess q)) (configure args w) tr
  = (Return a, tr1) ->
  environ (run_world (main args line w tr)) "HUGGINGFACE_API_TOKEN" = Some key
  /\ environ (run_world (main args line w tr)) "GOOGLE_API_KEY"
     = environ w "GOOGLE_API_KEY"
  /\ environ (run_world (main args line w tr)) "GEMINI_API_KEY"
     = environ w "GEMINI_API_KEY"
  /\ In ("Source: gemini" ++ LF) (run_stdout (main args line w tr))
  /\ exists evs,
       run_trace (main args line w tr) = (tr ++ evs)%list
       /\ ~ huggingface_invoked evs.
Proof.
  intros Hk Hne Hp Hq HA. destruct key as [|c s]; [congruence|].
  destruct (configure_huggingface_key args w c s Hk Hp) as (HT & HG & HK).
  destruct (main_asks args line w tr q Hq) as (r & tr' & Hrun & ->).
  cbn [run_world run_trace run_stdout].
  split; [exact HT|]. split; [exact HG|]. split; [exact HK|].
  rewrite (ask_llm_first _ _ _ _ _ HA) in Hrun. injection Hrun as <- <-.
  split.
  - apply in_or_app. right. unfold report. cbn [source]. cbn. auto.
  - destruct (send_to_gemini_events (construct_prompt (preprocess q))
                (configure args w) tr) as (evs & E & Hno).
    rewrite HA in E. cbn [snd] in E. now exists evs.
Qed.

(** X21 in a world where Provider A is configured and answers. *)
Lemma main_provider_is_not_preferred_witness :
  In ("Source: gemini" ++ LF)
    (run_stdout (main {| args_question := Some ["Why?"];
                         args_api_key := Some "token-z";
                         args_provider := ProviderHuggingface;
                         args_model := None |} None world_paris [])).
Proof.
  destruct (main_provider_is_not_preferred
              {| args_question := Some ["Why?"]; args_api_key := Some "token-z";
                 args_provider := ProviderHuggingface; args_model := None |}
              None world_paris [] "token-z" "Why?" "Paris"
              (snd (send_to_gemini (construct_prompt (preprocess "Why?"))
                      world_paris []))
              eq_refl ltac:(discriminate) eq_refl eq_refl eq_refl)
    as (_ & _ & _ & H & _).
  exact H.
Defined.
